(** * A shallow embedding of the stack VM of [VMState/vm.py]

    The development follows the Python module top to bottom: the exception
    classes, the [check_argument_length] decorator, the [VMState] object with
    its registry, the assembler, the fetch/dispatch loop of [run] and the
    thirteen [vm_*] methods.  Python integers are unbounded and are modelled
    by [Z]; a Python [str] is a sequence of Unicode code points and is
    modelled by [list N]. *)

From stdpp Require Import strings gmap list.
From Stdlib Require Import ZArith DecimalString.

Local Open Scope Z_scope.

(** ** Python values *)

(** A [str]: the list of its code points. *)
Abbreviation pystr := (list N).

(** A string literal of the source, as a [str]. *)
Definition lit (s : string) : pystr :=
  map Ascii.N_of_ascii (String.list_ascii_of_string s).

(** The objects that reach the operand stack, the program counter and the
    argument slot of an instruction: an [int], or [None] (what [assemble]
    stores when a line has no argument token). *)
Inductive value : Type :=
  | VInt (z : Z)
  | VNone.

#[global] Instance value_eq_dec : EqDecision value.
Proof. solve_decision. Defined.

(** [x == y] on these objects. *)
Definition py_eq (x y : value) : bool := bool_decide (x = y).

(** Truth value of an object: [0] and [None] are false. *)
Definition truthy (x : value) : bool :=
  match x with
  | VInt z => negb (z =? 0)
  | VNone => false
  end.

(** The decimal form of an integer: a minus sign for a negative one, then
    the digits without leading zeros. *)
Definition decimal (z : Z) : pystr := lit (NilEmpty.string_of_int (Z.to_int z)).

(** [str(x)]: the decimal form of an integer, ["None"] for [None].  (The
    digit limit some interpreters put on this conversion is not modelled.) *)
Definition py_str (x : value) : pystr :=
  match x with
  | VInt z => decimal z
  | VNone => lit "None"
  end.

(** ** Exceptions *)

(** The four exception classes of the module, and the built-in exceptions
    the code can run into.  [ChrError] is what [chr] raises on an integer
    that is no code point ([ValueError]; [OverflowError] beyond the range of
    a C int).  [Blocked] is not an exception: [LifoQueue.get] on an empty
    queue never returns. *)
Inductive exn : Type :=
  | DivByZero
  | VMSegfault
  | VMStackFail
  | InvalidInstruction
  | TypeError
  | ZeroDivisionError
  | ValueError
  | ChrError
  | KeyError
  | IndexError
  | Blocked.

#[global] Instance exn_eq_dec : EqDecision exn.
Proof. solve_decision. Defined.

(** ** The VM object *)

(** The bound methods stored in [instruction_actions]. *)
Inductive method : Type :=
  | m_print | m_load_const | m_add | m_exit | m_pop | m_div | m_eq
  | m_neq | m_dup | m_jmp | m_jmpz | m_write | m_write_char.

#[global] Instance method_eq_dec : EqDecision method.
Proof. solve_decision. Defined.

(** The attributes of a [VMState] instance.  [stack] is the [queue] list of
    the [LifoQueue] kept in reverse: its head is [queue[-1]], so [put] is a
    cons and [get] removes the head.  [stdout] stands for the standard
    output of the process, where [PRINT] writes. *)
Record VMState : Type := mkVM {
  pc : value;
  next_op_id : Z;
  stack : list value;
  instruction_ids : gmap (list N) Z;
  instruction_actions : gmap Z method;
  vm_output : list N;
  stdout : list N
}.

Definition set_pc (v : value) (s : VMState) : VMState :=
  mkVM v (next_op_id s) (stack s) (instruction_ids s) (instruction_actions s)
       (vm_output s) (stdout s).

Definition set_stack (st : list value) (s : VMState) : VMState :=
  mkVM (pc s) (next_op_id s) st (instruction_ids s) (instruction_actions s)
       (vm_output s) (stdout s).

Definition set_vm_output (o : list N) (s : VMState) : VMState :=
  mkVM (pc s) (next_op_id s) (stack s) (instruction_ids s)
       (instruction_actions s) o (stdout s).

Definition set_stdout (o : list N) (s : VMState) : VMState :=
  mkVM (pc s) (next_op_id s) (stack s) (instruction_ids s)
       (instruction_actions s) (vm_output s) o.

(** ** Computations on the VM object *)

(** A call either returns a result or raises; both leave a state behind
    (the caller of [run] reads [vm_state.pc] after a [VMSegfault]). *)
Inductive outcome (A : Type) : Type :=
  | Ok (a : A) (s : VMState)
  | Raise (e : exn) (s : VMState).
Arguments Ok {A} a s.
Arguments Raise {A} e s.

Definition M (A : Type) : Type := VMState → outcome A.

#[global] Instance M_ret : MRet M := λ A a s, Ok a s.

#[global] Instance M_bind : MBind M := λ A B f m s,
  match m s with
  | Ok a s' => f a s'
  | Raise e s' => Raise e s'
  end.

Definition raise {A : Type} (e : exn) : M A := λ s, Raise e s.
Definition get_state : M VMState := λ s, Ok s s.
Definition modify (f : VMState → VMState) : M () := λ s, Ok () (f s).

(** The queue operations used by the methods. *)
Definition qsize : M Z := λ s, Ok (Z.of_nat (length (stack s))) s.

Definition stack_put (v : value) : M () := modify (λ s, set_stack (v :: stack s) s).

Definition stack_get : M value := λ s,
  match stack s with
  | v :: st => Ok v (set_stack st s)
  | [] => Raise Blocked s
  end.

(** [self.stack.queue[-1]] *)
Definition stack_top : M value := λ s,
  match stack s with
  | v :: _ => Ok v s
  | [] => Raise IndexError s
  end.

(** ** Built-in operators *)

Definition py_add (x y : value) : M value :=
  match x, y with
  | VInt a, VInt b => mret (VInt (a + b))
  | _, _ => raise TypeError
  end.

(** [x // y]; [Z.div] rounds towards minus infinity like Python's [//]. *)
Definition py_floordiv (x y : value) : M value :=
  match x, y with
  | VInt a, VInt b => if b =? 0 then raise ZeroDivisionError else mret (VInt (a / b))
  | _, _ => raise TypeError
  end.

(** [chr(x)] *)
Definition py_chr (x : value) : M pystr :=
  match x with
  | VInt z => if (0 <=? z) && (z <? 1114112) then mret [Z.to_N z] else raise ChrError
  | VNone => raise TypeError
  end.

(** ** The decorator *)

(** [check_argument_length(n)(func)]; the default of [n] is [1]. *)
Definition check_argument_length (n : Z) (func : value → M bool) : value → M bool :=
  λ arg,
    sz ← qsize;
    if sz <? n then raise VMStackFail else func arg.

(** ** The methods *)

Definition vm_print : value → M bool :=
  check_argument_length 1 (λ _,
    top ← stack_top;
    modify (λ s, set_stdout (stdout s ++ py_str top ++ [10%N]) s);;
    mret true).

Definition vm_load_const : value → M bool :=
  λ arg, stack_put arg;; mret true.

Definition vm_add : value → M bool :=
  check_argument_length 2 (λ _,
    tos ← stack_get;
    tos_1 ← stack_get;
    r ← py_add tos tos_1;
    stack_put r;;
    mret true).

Definition vm_exit : value → M bool :=
  check_argument_length 1 (λ _, mret false).

Definition vm_pop : value → M bool :=
  check_argument_length 1 (λ _, stack_get;; mret true).

Definition vm_div : value → M bool :=
  check_argument_length 2 (λ _,
    tos ← stack_get;
    tos_1 ← stack_get;
    if py_eq tos (VInt 0) then raise DivByZero
    else
      r ← py_floordiv tos_1 tos;
      stack_put r;;
      mret true).

Definition vm_eq : value → M bool :=
  check_argument_length 2 (λ _,
    a ← stack_get;
    b ← stack_get;
    stack_put (VInt (if py_eq a b then 1 else 0));;
    mret true).

Definition vm_neq : value → M bool :=
  check_argument_length 2 (λ _,
    a ← stack_get;
    b ← stack_get;
    stack_put (VInt (if py_eq a b then 0 else 1));;
    mret true).

Definition vm_dup : value → M bool :=
  check_argument_length 1 (λ _,
    top ← stack_top;
    stack_put top;;
    mret true).

Definition vm_jmp : value → M bool :=
  λ arg, modify (set_pc arg);; mret true.

Definition vm_jmpz : value → M bool :=
  check_argument_length 1 (λ arg,
    top ← stack_top;
    if negb (truthy top) then
      stack_get;;
      modify (set_pc arg);;
      mret true
    else mret true).

Definition vm_write : value → M bool :=
  check_argument_length 1 (λ _,
    top ← stack_top;
    modify (λ s, set_vm_output (vm_output s ++ py_str top) s);;
    mret true).

Definition vm_write_char : value → M bool :=
  check_argument_length 1 (λ _,
    top ← stack_top;
    c ← py_chr top;
    modify (λ s, set_vm_output (vm_output s ++ c) s);;
    mret true).

(** Calling the bound method stored in the registry. *)
Definition call (m : method) : value → M bool :=
  match m with
  | m_print => vm_print
  | m_load_const => vm_load_const
  | m_add => vm_add
  | m_exit => vm_exit
  | m_pop => vm_pop
  | m_div => vm_div
  | m_eq => vm_eq
  | m_neq => vm_neq
  | m_dup => vm_dup
  | m_jmp => vm_jmp
  | m_jmpz => vm_jmpz
  | m_write => vm_write
  | m_write_char => vm_write_char
  end.

(** ** Construction: the registry *)

Definition register_instruction (name : pystr) (action : method) : M () :=
  modify (λ s,
    mkVM (pc s) (next_op_id s + 1) (stack s)
         (<[name := next_op_id s]> (instruction_ids s))
         (<[next_op_id s := action]> (instruction_actions s))
         (vm_output s) (stdout s)).

Definition create_vm : M () :=
  register_instruction (lit "PRINT") m_print;;
  register_instruction (lit "LOAD_CONST") m_load_const;;
  register_instruction (lit "ADD") m_add;;
  register_instruction (lit "EXIT") m_exit;;
  register_instruction (lit "POP") m_pop;;
  register_instruction (lit "DIV") m_div;;
  register_instruction (lit "EQ") m_eq;;
  register_instruction (lit "NEQ") m_neq;;
  register_instruction (lit "DUP") m_dup;;
  register_instruction (lit "JMP") m_jmp;;
  register_instruction (lit "JMPZ") m_jmpz;;
  register_instruction (lit "WRITE") m_write;;
  register_instruction (lit "WRITE_CHAR") m_write_char.

(** The state in which [__init__] finds the attributes before [create_vm]. *)
Definition blank : VMState := mkVM (VInt 0) 0 [] ∅ ∅ [] [].

(** [VMState()] *)
Definition new_vm : VMState :=
  match create_vm blank with
  | Ok _ s => s
  | Raise _ s => s
  end.

(** ** The assembler *)

(** An instruction: the pair [(op_id, argument)] appended by [assemble]. *)
Abbreviation instr := (Z * value)%type.

(** [s.split(sep)] for a one-character separator. *)
Fixpoint split (sep : N) (s : pystr) : list pystr :=
  match s with
  | [] => [[]]
  | c :: s' =>
      if (c =? sep)%N then [] :: split sep s'
      else match split sep s' with
           | w :: ws => (c :: w) :: ws
           | [] => [[c]]
           end
  end.

Definition LF : N := 10.
Definition SP : N := 32.

Section Assembler.

(** The built-in [int] on a [str]: the integer it parses, [None] where it
    raises [ValueError]. *)
Variable int_of_str : pystr → option Z.

Definition py_int (w : pystr) : M value :=
  match int_of_str w with
  | Some z => mret (VInt z)
  | None => raise ValueError
  end.

(** The body of the [for] loop of [assemble], on the lines still to read
    and the [code] list built so far. *)
Fixpoint assemble_loop (lines : list pystr) (code : list instr) : M (list instr) :=
  match lines with
  | [] => mret code
  | line :: rest =>
      let words := split SP line in
      if 3 <=? Z.of_nat (length words) then raise InvalidInstruction
      else
        s ← get_state;
        match words with
        | [] => raise IndexError
        | w0 :: _ =>
            match instruction_ids s !! w0 with
            | None => raise InvalidInstruction
            | Some op_id =>
                arg ← (if Z.of_nat (length words) =? 2
                       then match words !! 1%nat with
                            | Some w1 => py_int w1
                            | None => raise IndexError
                            end
                       else mret VNone);
                assemble_loop rest (code ++ [(op_id, arg)])
            end
        end
  end.

Definition assemble (input_code : pystr) : M (list instr) :=
  assemble_loop (filter (λ line : pystr, line ≠ []) (split LF input_code)) [].

End Assembler.

(** ** The execution loop *)

(** One turn of the [while True] loop of [run]; the result is [status]. *)
Definition loop_body (code : list instr) : M bool :=
  s ← get_state;
  match pc s with
  | VNone => raise TypeError
  | VInt p =>
      if (p <? 0) || (Z.of_nat (length code) <=? p) then raise VMSegfault
      else
        match code !! Z.to_nat p with
        | None => raise IndexError
        | Some (op_id, arg) =>
            modify (set_pc (VInt (p + 1)));;
            match instruction_actions s !! op_id with
            | None => raise KeyError
            | Some m => call m arg
            end
        end
  end.

(** The [return] statement of [run]. *)
Definition run_return : M (value * pystr) :=
  top ← stack_top;
  s ← get_state;
  mret (top, vm_output s).

(** [run]: the loop has no bound in the source; [fuel] bounds the number of
    turns, and [None] says the bound was reached. *)
Fixpoint run (fuel : nat) (code : list instr) (s : VMState)
  : option (outcome (value * pystr)) :=
  match fuel with
  | O => None
  | S fuel' =>
      match loop_body code s with
      | Raise e s' => Some (Raise e s')
      | Ok true s' => run fuel' code s'
      | Ok false s' => Some (run_return s')
      end
  end.

(** ** An instance of [int] for tests *)

(** [int] restricted to ASCII text: optional blanks around an optional sign
    and decimal digits, single underscores allowed between digits.  It is
    used for the concrete programs below only; the theorems on [assemble]
    hold for every [int_of_str]. *)
Definition is_space (c : N) : bool := ((9 <=? c) && (c <=? 13) || (c =? 32))%N.
Definition is_digit (c : N) : bool := ((48 <=? c) && (c <=? 57))%N.

Fixpoint lstrip (s : pystr) : pystr :=
  match s with
  | c :: s' => if is_space c then lstrip s' else s
  | [] => []
  end.

Definition strip (s : pystr) : pystr := rev (lstrip (rev (lstrip s))).

Fixpoint digits (acc : Z) (after_digit : bool) (s : pystr) : option Z :=
  match s with
  | [] => if after_digit then Some acc else None
  | c :: s' =>
      if is_digit c then digits (10 * acc + (Z.of_N c - 48)) true s'
      else if (c =? 95)%N && after_digit then digits acc false s'
      else None
  end.

Definition ascii_int (s : pystr) : option Z :=
  match strip s with
  | 43%N :: r => digits 0 false r
  | 45%N :: r => Z.opp <$> digits 0 false r
  | t => digits 0 false t
  end.

(** The two programs of [main.py]. *)
Definition program : pystr :=
  lit "LOAD_CONST 432" ++ [LF] ++ lit "LOAD_CONST 905" ++ [LF] ++ lit "ADD" ++ [LF]
  ++ lit "PRINT" ++ [LF] ++ lit "LOAD_CONST 65" ++ [LF] ++ lit "WRITE_CHAR" ++ [LF]
  ++ lit "EXIT" ++ [LF].

Definition program2 : pystr :=
  lit "LOAD_CONST 100" ++ [LF] ++ lit "LOAD_CONST 0" ++ [LF] ++ lit "DIV" ++ [LF]
  ++ lit "EXIT".

(** [vm_state.run(vm_state.assemble(text))] on a fresh VM. *)
Definition assemble_and_run (fuel : nat) (text : pystr) : option (outcome (value * pystr)) :=
  match assemble ascii_int text new_vm with
  | Ok code s => run fuel code s
  | Raise e s => Some (Raise e s)
  end.

(** ** Notions used to state the properties *)

(** The method and argument the loop dispatches to in state [s], when the
    fetch succeeds. *)
Definition current (code : list instr) (s : VMState) : option (method * value) :=
  match pc s with
  | VInt p =>
      if (p <? 0) || (Z.of_nat (length code) <=? p) then None
      else
        match code !! Z.to_nat p with
        | Some (op_id, arg) => (λ m, (m, arg)) <$> instruction_actions s !! op_id
        | None => None
        end
  | VNone => None
  end.

(** The program counter after the increment of the loop. *)
Definition next_pc (s : VMState) : value :=
  match pc s with
  | VInt p => VInt (p + 1)
  | VNone => VNone
  end.

(** The program counter is an integer outside [0, len(code)). *)
Definition out_of_range (code : list instr) (s : VMState) : Prop :=
  ∃ p, pc s = VInt p ∧ (p < 0 ∨ Z.of_nat (length code) ≤ p).

(** What an instruction appends to the output, in the words of the
    specification: [WRITE] the decimal form of the top of the stack,
    [WRITE_CHAR] the character whose code point is the top, any other
    instruction nothing.  (For a top that is [None], [WRITE] appends the
    text of [None].) *)
Definition appends (m : method) (st : list value) : pystr :=
  match m, st with
  | m_write, VInt z :: _ => decimal z
  | m_write, VNone :: _ => lit "None"
  | m_write_char, VInt z :: _ =>
      if (0 <=? z) && (z <? 1114112) then [Z.to_N z] else []
  | _, _ => []
  end.

(** What the instruction about to run in state [s] appends. *)
Definition written (code : list instr) (s : VMState) : pystr :=
  match current code s with
  | Some (m, _) => appends m (stack s)
  | None => []
  end.

(** [executes code s out s']: some number of turns of the loop, each one
    asking to continue, lead from [s] to [s']; [out] is the concatenation of
    what the executed instructions wrote, in execution order. *)
Inductive executes (code : list instr) : VMState → pystr → VMState → Prop :=
  | executes_nil s :
      executes code s [] s
  | executes_cons s s1 out s2 :
      loop_body code s = Ok true s1 →
      executes code s1 out s2 →
      executes code s (written code s ++ out) s2.

(** The stack holds integers only. *)
Definition is_int (v : value) : Prop :=
  match v with
  | VInt _ => True
  | VNone => False
  end.

Definition int_stack (s : VMState) : Prop := Forall is_int (stack s).

(** Every [LOAD_CONST] instruction of the program, as the registry
    [actions] reads the opcodes, carries an integer argument. *)
Definition const_args (actions : gmap Z method) (code : list instr) : Prop :=
  Forall (λ ins : instr, actions !! ins.1 = Some m_load_const → is_int ins.2) code.

(** No line of the text is the bare mnemonic [LOAD_CONST]. *)
Definition load_const_has_argument (text : pystr) : Prop :=
  ∀ line : pystr, line ∈ split LF text → split SP line ≠ [lit "LOAD_CONST"].

(** The VM object carries the registry built by [create_vm]. *)
Definition registered (s : VMState) : Prop :=
  instruction_ids s = instruction_ids new_vm
  ∧ instruction_actions s = instruction_actions new_vm.

(** [decodes int_of_str s line ins]: the line has one or two tokens, the
    first one is a registered mnemonic, the second one (when present) is
    accepted by [int], and [ins] is the instruction they denote. *)
Definition decodes (int_of_str : pystr → option Z) (s : VMState)
    (line : pystr) (ins : instr) : Prop :=
  (∃ w0, split SP line = [w0] ∧ instruction_ids s !! w0 = Some ins.1
         ∧ ins.2 = VNone)
  ∨ (∃ w0 w1 z, split SP line = [w0; w1] ∧ instruction_ids s !! w0 = Some ins.1
                ∧ int_of_str w1 = Some z ∧ ins.2 = VInt z).

(** ** The caller of [main.py] *)

(** The message each of the three exceptions caught by [test_vm] is raised
    with (every one of them has a single [raise] site). *)
Definition message (e : exn) : pystr :=
  match e with
  | VMStackFail => lit "[VM] Error: Not enough arguments."
  | VMSegfault => lit "[VM] Error: invalid pc."
  | DivByZero => lit "[VM] Error: Divide by zero."
  | _ => []
  end.

(** The [except] clauses of [test_vm]: what is on standard output when the
    [try] block raised [e] leaving the VM in state [s], and the exception
    that escapes, if any.  [out0] is what the caller printed before. *)
Definition test_vm_except (out0 : pystr) (e : exn) (s : VMState) : pystr * option exn :=
  match e with
  | VMStackFail | DivByZero =>
      (out0 ++ stdout s ++ message e ++ [LF], None)
  | VMSegfault =>
      (out0 ++ stdout s ++ message e ++ [LF]
       ++ lit "Tried to access invalid memory at pc = " ++ py_str (pc s) ++ [LF],
       None)
  | _ => (out0 ++ stdout s, Some e)
  end.

(** [test_vm(program_str)]: the text printed, and the exception that
    escapes the function, if any; [None] when the loop of [run] has not
    ended within [fuel] turns. *)
Definition test_vm (int_of_str : pystr → option Z) (fuel : nat) (program_str : pystr)
  : option (pystr * option exn) :=
  let out0 := lit "Initializing vm..." ++ [LF] in
  let vm_state := new_vm in
  match assemble int_of_str program_str vm_state with
  | Raise e s => Some (test_vm_except out0 e s)
  | Ok code s =>
      match run fuel code s with
      | None => None
      | Some (Raise e s') => Some (test_vm_except out0 e s')
      | Some (Ok (top, output) s') =>
          Some (out0 ++ stdout s' ++ lit "Top: " ++ py_str top
                ++ lit ", output: " ++ output ++ [LF], None)
      end
  end.

(** ** Further notions used to state properties *)

(** The registry is well formed: the opcodes handed out so far are exactly
    the integers from [0] up to [next_op_id], each with a handler, and every
    registered name maps to one of them. *)
Definition registry_consistent (s : VMState) : Prop :=
  0 ≤ next_op_id s
  ∧ (∀ op_id, is_Some (instruction_actions s !! op_id) ↔ 0 ≤ op_id < next_op_id s)
  ∧ (∀ name op_id, instruction_ids s !! name = Some op_id →
                   0 ≤ op_id < next_op_id s).

(** The stack depth each method is decorated with ([0] for the two
    undecorated ones). *)
Definition required_depth (m : method) : nat :=
  match m with
  | m_load_const | m_jmp => 0
  | m_print | m_exit | m_pop | m_dup | m_jmpz | m_write | m_write_char => 1
  | m_add | m_div | m_eq | m_neq => 2
  end.

(** [sep.join(parts)] for a one-character separator. *)
Fixpoint join (sep : N) (parts : list pystr) : pystr :=
  match parts with
  | [] => []
  | [w] => w
  | w :: ws => w ++ sep :: join sep ws
  end.

(** The state a call leaves behind, whether it returned or raised. *)
Definition final_state {A : Type} (r : outcome A) : VMState :=
  match r with
  | Ok _ s => s
  | Raise _ s => s
  end.

(** ** Sanity checks on the programs of [main.py] *)

Example decimal_examples :
  decimal 1337 = lit "1337" ∧ decimal 0 = lit "0" ∧ decimal (-42) = lit "-42".
Proof. repeat split; reflexivity. Qed.

Example ascii_int_examples :
  ascii_int (lit "432") = Some 432 ∧ ascii_int (lit " -1_000 ") = Some (-1000)
  ∧ ascii_int (lit "1__0") = None ∧ ascii_int (lit "x") = None
  ∧ ascii_int (lit "") = None.
Proof. repeat split; reflexivity. Qed.

Example assemble_program :
  assemble ascii_int program new_vm =
  Ok [(1, VInt 432); (1, VInt 905); (2, VNone); (0, VNone); (1, VInt 65);
      (12, VNone); (3, VNone)] new_vm.
Proof. vm_compute. reflexivity. Qed.

Example run_program :
  ∃ s, assemble_and_run 7 program = Some (Ok (VInt 65, lit "A") s)
       ∧ stack s = [VInt 65; VInt 1337] ∧ stdout s = lit "1337" ++ [LF].
Proof. eexists. split; [vm_compute; reflexivity | split; reflexivity]. Qed.

Example run_program2 :
  ∃ s, assemble_and_run 7 program2 = Some (Raise DivByZero s) ∧ stack s = [].
Proof. eexists. split; [vm_compute; reflexivity | reflexivity]. Qed.

(** ** The methods, one at a time *)

(** Unfolds the monadic plumbing of a method applied to a state. *)
Ltac run_method :=
  unfold vm_print, vm_load_const, vm_add, vm_exit, vm_pop, vm_div, vm_eq,
    vm_neq, vm_dup, vm_jmp, vm_jmpz, vm_write, vm_write_char,
    check_argument_length, qsize, stack_put, stack_get, stack_top, modify,
    get_state, raise, py_add, py_floordiv, py_chr, mbind, M_bind, mret, M_ret.

(** The decorator lets a call through exactly when the stack holds at least
    [n] values, and raises without touching the state otherwise. *)
Lemma check_argument_length_spec (n : Z) (func : value → M bool) (arg : value) (s : VMState) :
  check_argument_length n func arg s =
  if Z.of_nat (length (stack s)) <? n then Raise VMStackFail s else func arg s.
Proof. run_method. destruct (_ <? _); reflexivity. Qed.

Lemma depth_ok1 (v : value) (rest : list value) :
  (Z.of_nat (length (v :: rest)) <? 1) = false.
Proof. apply Z.ltb_ge. simpl. lia. Qed.

Lemma depth_ok2 (v w : value) (rest : list value) :
  (Z.of_nat (length (v :: w :: rest)) <? 2) = false.
Proof. apply Z.ltb_ge. simpl. lia. Qed.

Lemma truthy_false (v : value) : truthy v = false ↔ v = VInt 0 ∨ v = VNone.
Proof.
  destruct v as [z|]; simpl.
  - rewrite negb_false_iff, Z.eqb_eq. split; [intros ->; by left|].
    intros [H|H]; congruence.
  - split; [by right | done].
Qed.

(** [EXIT] on an empty stack and on a stack that is not empty. *)
Lemma vm_exit_cases (arg : value) (s : VMState) :
  vm_exit arg s =
  if decide (stack s = []) then Raise VMStackFail s else Ok false s.
Proof.
  unfold vm_exit. rewrite check_argument_length_spec.
  destruct (stack s) as [|v st]; [reflexivity|].
  rewrite decide_False by discriminate. by rewrite depth_ok1.
Qed.

(** C4 (as the code has it): [EXIT] is decorated with the default depth 1.
    On an empty stack it raises [VMStackFail] and leaves the state as it is;
    on a stack with at least one value it returns the stop signal and leaves
    the state as it is. *)
Theorem C4_exit_requires_depth_one (arg : value) (s : VMState) :
  (stack s = [] → vm_exit arg s = Raise VMStackFail s)
  ∧ (stack s ≠ [] → vm_exit arg s = Ok false s).
Proof.
  rewrite vm_exit_cases. split; intros H.
  - by rewrite decide_True.
  - by rewrite decide_False.
Qed.

Lemma C4_exit_requires_depth_one_witness :
  vm_exit VNone new_vm = Raise VMStackFail new_vm
  ∧ vm_exit VNone (set_stack [VInt 7] new_vm) = Ok false (set_stack [VInt 7] new_vm).
Proof.
  split.
  - apply (C4_exit_requires_depth_one VNone new_vm). reflexivity.
  - apply (C4_exit_requires_depth_one VNone (set_stack [VInt 7] new_vm)). discriminate.
Defined.

(** C4, the claim as stated fails: on the empty stack of a fresh VM, [EXIT]
    raises [VMStackFail] and does not return the stop signal. *)
Lemma C4_exit_on_empty_stack_counterexample :
  stack new_vm = [] ∧ vm_exit VNone new_vm = Raise VMStackFail new_vm
  ∧ vm_exit VNone new_vm ≠ Ok false new_vm.
Proof. split; [reflexivity|]. split; [reflexivity | discriminate]. Qed.

(** C5: on a stack whose two topmost values are the integers [a] (top, the
    divisor) and [b] (the dividend), [DIV] raises [DivByZero] when [a = 0];
    otherwise it replaces the two by the integer [q = b // a] and asks to
    continue, where [q] is the floor of the quotient: [q <= b/a < q + 1],
    whatever the signs. *)
Theorem C5_div_floor (arg : value) (s : VMState) (a b : Z) (rest : list value) :
  stack s = VInt a :: VInt b :: rest →
  (a = 0 → ∃ s', vm_div arg s = Raise DivByZero s')
  ∧ (a ≠ 0 →
     vm_div arg s = Ok true (set_stack (VInt (b / a) :: rest) s)
     ∧ (0 < a → a * (b / a) ≤ b < a * (b / a) + a)
     ∧ (a < 0 → a * (b / a) + a < b ≤ a * (b / a))).
Proof.
  intros Hst. split.
  - intros ->. eexists. unfold vm_div.
    rewrite check_argument_length_spec, Hst, depth_ok2.
    run_method. rewrite Hst. simpl. reflexivity.
  - intros Ha. split.
    + unfold vm_div. rewrite check_argument_length_spec, Hst, depth_ok2.
      run_method. rewrite Hst. simpl.
      unfold py_eq. rewrite bool_decide_eq_false_2 by congruence.
      destruct (Z.eqb_spec a 0) as [|_]; [done|]. reflexivity.
    + pose proof (Z.div_mod b a Ha) as Hdm. split; intros Hs.
      * pose proof (Z.mod_pos_bound b a Hs). lia.
      * pose proof (Z.mod_neg_bound b a Hs). lia.
Qed.

Lemma C5_div_floor_witness :
  vm_div VNone (set_stack [VInt (-2); VInt 7] new_vm)
  = Ok true (set_stack [VInt (-4)] (set_stack [VInt (-2); VInt 7] new_vm)).
Proof.
  pose proof (C5_div_floor VNone (set_stack [VInt (-2); VInt 7] new_vm) (-2) 7 []
                eq_refl) as [_ H].
  destruct H as [H _]; [lia|]. exact H.
Defined.

(** C10: when [DIV] raises [DivByZero] (at least two values on the stack,
    the top one being [0]), both operands are gone: the state left behind
    has the original stack without its two topmost values. *)
Theorem C10_div_by_zero_pops_both (arg : value) (s : VMState) (b : value) (rest : list value) :
  stack s = VInt 0 :: b :: rest →
  vm_div arg s = Raise DivByZero (set_stack rest s).
Proof.
  intros Hst. unfold vm_div.
  rewrite check_argument_length_spec, Hst, depth_ok2.
  run_method. rewrite Hst. simpl. reflexivity.
Qed.

Lemma C10_div_by_zero_pops_both_witness :
  vm_div VNone (set_stack [VInt 0; VInt 100; VInt 5] new_vm)
  = Raise DivByZero (set_stack [VInt 5] (set_stack [VInt 0; VInt 100; VInt 5] new_vm)).
Proof.
  apply (C10_div_by_zero_pops_both VNone (set_stack [VInt 0; VInt 100; VInt 5] new_vm)
           (VInt 100) [VInt 5]).
  reflexivity.
Defined.

(** Runs a method on a state whose stack shape is given by [Hst]. *)
Ltac run_on Hst :=
  unfold call, vm_print, vm_add, vm_exit, vm_pop, vm_div, vm_eq, vm_neq,
    vm_dup, vm_jmpz, vm_write, vm_write_char;
  rewrite ?check_argument_length_spec, ?Hst, ?depth_ok1, ?depth_ok2;
  run_method; rewrite ?Hst; simpl.

Ltac split_values :=
  repeat match goal with
         | v : value |- _ => destruct v
         end;
  simpl;
  repeat match goal with
         | |- context [if ?b then _ else _] => destruct b eqn:?; simpl
         end.

(** Closes the branches in which the zero test of [DIV] and the one of [//]
    disagree. *)
Ltac zero_tests :=
  exfalso; unfold py_eq in *;
  repeat match goal with
         | H : bool_decide _ = false |- _ => apply bool_decide_eq_false in H
         | H : bool_decide _ = true |- _ => apply bool_decide_eq_true in H
         | H : (_ =? _) = true |- _ => apply Z.eqb_eq in H
         | H : (_ =? _) = false |- _ => apply Z.eqb_neq in H
         end;
  congruence.

(** What a method can do: it keeps the registry; the only one that returns
    the stop signal is [EXIT], on a state it leaves as it is and whose stack
    is not empty; the exceptions are the four listed. *)
Lemma call_outcome (m : method) (arg : value) (s : VMState) :
  match call m arg s with
  | Ok b s' =>
      instruction_actions s' = instruction_actions s
      ∧ (b = false → m = m_exit ∧ s' = s ∧ stack s ≠ [])
  | Raise e s' =>
      instruction_actions s' = instruction_actions s
      ∧ (e = VMStackFail ∨ e = DivByZero ∨ e = TypeError ∨ e = ChrError)
  end.
Proof.
  destruct (stack s) as [|v [|w rest]] eqn:Hst; destruct m; run_on Hst;
    split_values; rewrite ?Hst; first [zero_tests | naive_solver].
Qed.

(** On success a method has appended to the output what the specification
    says, and nothing else. *)
Lemma call_output (m : method) (arg : value) (s : VMState) (b : bool) (s' : VMState) :
  call m arg s = Ok b s' → vm_output s' = vm_output s ++ appends m (stack s).
Proof.
  destruct (stack s) as [|v [|w rest]] eqn:Hst; destruct m; run_on Hst;
    split_values; rewrite ?Hst; simpl; intros H; simplify_eq; simpl;
    rewrite ?app_nil_r; reflexivity.
Qed.

(** ** One turn of the loop *)

Lemma loop_body_current (code : list instr) (s : VMState) (m : method) (arg : value) :
  current code s = Some (m, arg) →
  loop_body code s = call m arg (set_pc (next_pc s) s).
Proof.
  unfold current, loop_body, next_pc. run_method.
  destruct (pc s) as [p|]; [|discriminate].
  destruct (_ || _); [discriminate|].
  destruct (code !! Z.to_nat p) as [[op_id a]|]; [|discriminate].
  destruct (instruction_actions s !! op_id); simpl; [|discriminate].
  by intros [= -> ->].
Qed.

Lemma loop_body_out_of_range (code : list instr) (s : VMState) :
  out_of_range code s → loop_body code s = Raise VMSegfault s.
Proof.
  intros (p & Hp & Hr). unfold loop_body. run_method. rewrite Hp.
  destruct (_ || _) eqn:E; [reflexivity|].
  apply orb_false_elim in E as [?%Z.ltb_ge ?%Z.leb_gt]. lia.
Qed.

(** The four ways a turn can go. *)
Lemma loop_body_cases (code : list instr) (s : VMState) :
  (pc s = VNone ∧ loop_body code s = Raise TypeError s)
  ∨ (out_of_range code s ∧ loop_body code s = Raise VMSegfault s)
  ∨ (¬ out_of_range code s
     ∧ loop_body code s = Raise KeyError (set_pc (next_pc s) s))
  ∨ (∃ m arg, ¬ out_of_range code s ∧ current code s = Some (m, arg)
              ∧ loop_body code s = call m arg (set_pc (next_pc s) s)).
Proof.
  destruct (pc s) as [p|] eqn:Hp; [|left; split; [done|]].
  2: { unfold loop_body. run_method. by rewrite Hp. }
  right.
  destruct (decide (p < 0 ∨ Z.of_nat (length code) ≤ p)) as [Hr|Hr].
  { left. assert (out_of_range code s) by (by exists p).
    split; [done | by apply loop_body_out_of_range]. }
  right.
  assert (Hn : ¬ out_of_range code s).
  { intros (q & Hq & ?). rewrite Hp in Hq. injection Hq as <-. done. }
  destruct (current code s) as [[m arg]|] eqn:Hc.
  { right. exists m, arg. split; [done|]. split; [done|].
    by apply loop_body_current. }
  left. split; [done|]. revert Hc.
  unfold current, loop_body, next_pc. run_method. rewrite Hp.
  destruct (_ || _) eqn:E.
  { apply orb_true_iff in E as [?%Z.ltb_lt | ?%Z.leb_le]; lia. }
  destruct (code !! Z.to_nat p) as [[op_id a]|] eqn:Hl.
  - destruct (instruction_actions s !! op_id); [discriminate | done].
  - apply lookup_ge_None in Hl. lia.
Qed.

(** A turn that asks to continue has appended what its instruction writes. *)
Lemma loop_body_output (code : list instr) (s s' : VMState) (b : bool) :
  loop_body code s = Ok b s' → vm_output s' = vm_output s ++ written code s.
Proof.
  intros H. unfold written.
  destruct (loop_body_cases code s)
    as [[_ E]|[[_ E]|[[_ E]|(m & arg & _ & Hc & E)]]]; rewrite E in H;
    try discriminate.
  rewrite Hc. apply call_output in H. exact H.
Qed.

(** A turn stops the loop only on [EXIT], with a stack that is not empty and
    that it leaves as it is. *)
Lemma loop_body_stop (code : list instr) (s s' : VMState) :
  loop_body code s = Ok false s' →
  (∃ arg, current code s = Some (m_exit, arg))
  ∧ s' = set_pc (next_pc s) s ∧ stack s ≠ [].
Proof.
  intros H.
  destruct (loop_body_cases code s)
    as [[_ E]|[[_ E]|[[_ E]|(m & arg & _ & Hc & E)]]]; rewrite E in H;
    try discriminate.
  pose proof (call_outcome m arg (set_pc (next_pc s) s)) as Ho.
  rewrite H in Ho. destruct Ho as [_ Ho].
  destruct (Ho eq_refl) as (-> & -> & Hne). eauto.
Qed.

(** The exceptions a turn can raise. *)
Lemma loop_body_raises (code : list instr) (s s' : VMState) (e : exn) :
  loop_body code s = Raise e s' →
  (e = VMSegfault ∧ out_of_range code s ∧ s' = s)
  ∨ (¬ out_of_range code s
     ∧ (e = TypeError ∨ e = KeyError ∨ e = VMStackFail ∨ e = DivByZero
        ∨ e = ChrError)).
Proof.
  intros H.
  destruct (loop_body_cases code s)
    as [[Hp E]|[[Hr E]|[[Hr E]|(m & arg & Hr & Hc & E)]]]; rewrite E in H.
  - right. injection H as <- <-. split; [|by left].
    intros (p & Hq & _). congruence.
  - left. by injection H as <- <-.
  - right. injection H as <- _. split; [done | right; by left].
  - right. split; [done|].
    pose proof (call_outcome m arg (set_pc (next_pc s) s)) as Ho.
    rewrite H in Ho. destruct Ho as [_ [->|[->|[->| ->]]]]; auto 6.
Qed.

(** ** The loop *)

(** Extra fuel does not change a result. *)
Lemma run_more_fuel (code : list instr) (fuel : nat) :
  ∀ (s : VMState) (r : outcome (value * pystr)) (fuel' : nat),
    run fuel code s = Some r → (fuel ≤ fuel')%nat → run fuel' code s = Some r.
Proof.
  induction fuel as [|fuel IH]; intros s r fuel' H Hle; [discriminate|].
  destruct fuel' as [|fuel']; [lia|]. simpl in *.
  destruct (loop_body code s) as [[|] s1|e s1]; [|done|done].
  apply IH; [done | lia].
Qed.

(** After the turns of an execution the loop goes on from the state they
    reach. *)
Lemma run_after_executes (code : list instr) (s s' : VMState) (out : pystr) :
  executes code s out s' →
  ∃ n : nat, ∀ k : nat, run (n + k) code s = run k code s'.
Proof.
  induction 1 as [s|s s1 out s2 Hstep _ [n IH]].
  - by exists 0%nat.
  - exists (S n). intros k. simpl. rewrite Hstep. apply IH.
Qed.

Lemma executes_output (code : list instr) (s s' : VMState) (out : pystr) :
  executes code s out s' → vm_output s' = vm_output s ++ out.
Proof.
  induction 1 as [s|s s1 out s2 Hstep _ IH].
  - by rewrite app_nil_r.
  - rewrite IH, (loop_body_output _ _ _ _ Hstep). by rewrite app_assoc.
Qed.

Lemma executes_snoc (code : list instr) (s s1 s2 : VMState) (out : pystr) :
  executes code s out s1 →
  loop_body code s1 = Ok true s2 →
  executes code s (out ++ written code s1) s2.
Proof.
  induction 1 as [s|s sa out sb Hstep _ IH]; intros H2.
  - simpl. rewrite <- (app_nil_r (written code s)).
    eapply executes_cons; [done | constructor].
  - rewrite <- app_assoc. eapply executes_cons; [done | by apply IH].
Qed.

(** Whatever the loop delivers, it delivers at the end of an execution. *)
Lemma run_inv (code : list instr) (fuel : nat) :
  ∀ (s : VMState) (r : outcome (value * pystr)),
    run fuel code s = Some r →
    ∃ out sn,
      executes code s out sn
      ∧ match loop_body code sn with
        | Ok true _ => False
        | Ok false s' => r = run_return s'
        | Raise e s' => r = Raise e s'
        end.
Proof.
  induction fuel as [|fuel IH]; intros s r H; [discriminate|].
  simpl in H. destruct (loop_body code s) as [[|] s1|e s1] eqn:E.
  - destruct (IH _ _ H) as (out & sn & Hex & Hend).
    exists (written code s ++ out), sn. split; [|done].
    by eapply executes_cons.
  - exists [], s. split; [constructor|]. rewrite E. congruence.
  - exists [], s. split; [constructor|]. rewrite E. congruence.
Qed.

(** C1: take an execution that reaches, after any number of turns, a state
    [sn] about to run [EXIT] with [top] on top of its stack.  Given enough
    fuel, [run] returns [top] together with the output it started with
    followed by the concatenation, in execution order, of what the executed
    [WRITE]s (decimal form of the top) and [WRITE_CHAR]s (the character with
    the top as code point) appended. *)
Theorem C1_run_returns_top_and_output
    (code : list instr) (s0 sn : VMState) (out : pystr)
    (arg top : value) (rest : list value) :
  executes code s0 out sn →
  current code sn = Some (m_exit, arg) →
  stack sn = top :: rest →
  ∃ n : nat, ∀ fuel : nat, (n ≤ fuel)%nat →
    run fuel code s0
    = Some (Ok (top, vm_output s0 ++ out) (set_pc (next_pc sn) sn)).
Proof.
  intros Hex Hcur Hst.
  destruct (run_after_executes _ _ _ _ Hex) as [n Hn].
  exists (n + 1)%nat. intros fuel Hle.
  apply (run_more_fuel code (n + 1)); [|done].
  rewrite Hn. simpl.
  rewrite (loop_body_current _ _ _ _ Hcur). simpl.
  rewrite vm_exit_cases. simpl. rewrite Hst.
  rewrite decide_False by discriminate.
  unfold run_return. run_method. simpl. rewrite Hst.
  by rewrite <- (executes_output _ _ _ _ Hex).
Qed.

Lemma C1_run_returns_top_and_output_witness :
  ∃ n : nat, ∀ fuel : nat, (n ≤ fuel)%nat →
    run fuel [(1, VInt 65); (12, VNone); (3, VNone)] new_vm
    = Some (Ok (VInt 65, [] ++ lit "A")
               (set_pc (VInt 3)
                  (set_vm_output (lit "A") (set_stack [VInt 65] new_vm)))).
Proof.
  pose (code := [(1, VInt 65); (12, VNone); (3, VNone)] : list instr).
  pose (s1 := set_pc (VInt 1) (set_stack [VInt 65] new_vm)).
  pose (s2 := set_vm_output (lit "A") (set_pc (VInt 2) s1)).
  apply (C1_run_returns_top_and_output code new_vm s2
           (written code new_vm ++ written code s1 ++ []) VNone (VInt 65) []).
  - apply (executes_cons code new_vm s1); [reflexivity|].
    apply (executes_cons code s1 s2); [reflexivity|].
    apply executes_nil.
  - reflexivity.
  - reflexivity.
Defined.

(** The exceptions [run] can end with: neither the final read of the top of
    the stack nor any read or pop inside a method ever finds the stack
    empty. *)
Lemma run_raises (code : list instr) (fuel : nat) (s s' : VMState) (e : exn) :
  run fuel code s = Some (Raise e s') →
  e = VMSegfault ∨ e = TypeError ∨ e = KeyError ∨ e = VMStackFail
  ∨ e = DivByZero ∨ e = ChrError.
Proof.
  intros H. destruct (run_inv _ _ _ _ H) as (out & sn & _ & Hend).
  destruct (loop_body code sn) as [[|] s1|e1 s1] eqn:E; [done| |].
  - apply loop_body_stop in E as (_ & -> & Hne).
    revert Hend. unfold run_return. run_method. simpl.
    destruct (stack sn); [done | discriminate].
  - injection Hend as -> ->.
    apply loop_body_raises in E as [(-> & _)|(_ & E)]; [by left|].
    destruct E as [->|[->|[->|[->| ->]]]]; auto 6.
Qed.

(** C3: a run that comes to [EXIT] with the operand stack empty fails with
    [VMStackFail] (raised by the depth check of [EXIT], before the loop
    ends) and returns no result; and no run ever fails with the error of
    reading the top of an empty stack ([IndexError]), nor blocks on popping
    one. *)
Theorem C3_exit_with_empty_stack_is_stack_fail :
  (∀ (code : list instr) (s : VMState) (arg : value) (fuel : nat),
      current code s = Some (m_exit, arg) →
      stack s = [] →
      run (S fuel) code s = Some (Raise VMStackFail (set_pc (next_pc s) s)))
  ∧ (∀ (code : list instr) (fuel : nat) (s s' : VMState) (e : exn),
      run fuel code s = Some (Raise e s') → e ≠ IndexError ∧ e ≠ Blocked).
Proof.
  split.
  - intros code s arg fuel Hcur Hst. simpl.
    rewrite (loop_body_current _ _ _ _ Hcur). simpl.
    rewrite vm_exit_cases. simpl. rewrite Hst. reflexivity.
  - intros code fuel s s' e H.
    apply run_raises in H as [->|[->|[->|[->|[->| ->]]]]]; split; discriminate.
Qed.

Lemma C3_exit_with_empty_stack_is_stack_fail_witness :
  run 1 [(3, VNone)] new_vm = Some (Raise VMStackFail (set_pc (VInt 1) new_vm)).
Proof.
  apply (proj1 C3_exit_with_empty_stack_is_stack_fail [(3, VNone)] new_vm VNone 0%nat);
    reflexivity.
Defined.

(** [JMPZ] on a stack that is not empty. *)
Lemma vm_jmpz_cases (arg : value) (s : VMState) (v : value) (rest : list value) :
  stack s = v :: rest →
  vm_jmpz arg s
  = Ok true (if truthy v then s else set_pc arg (set_stack rest s)).
Proof.
  intros Hst. run_on Hst. destruct (truthy v); simpl; [reflexivity|].
  rewrite Hst. reflexivity.
Qed.

(** C6: [JMPZ] requires one value on the stack ([VMStackFail] on an empty
    one).  When the top is zero or falsy it pops it and sets [pc] to its
    argument; when the top is nonzero it changes nothing, so that the turn of
    the loop running it ends with the same stack and the program counter
    already incremented to [pc + 1].  The pop and the jump happen exactly in
    the first case. *)
Theorem C6_jmpz_pops_only_when_taken :
  (∀ (arg : value) (s : VMState),
      stack s = [] → vm_jmpz arg s = Raise VMStackFail s)
  ∧ (∀ (arg : value) (s : VMState) (v : value) (rest : list value),
      stack s = v :: rest →
      (truthy v = false ↔ v = VInt 0 ∨ v = VNone)
      ∧ (truthy v = false →
         vm_jmpz arg s = Ok true (set_pc arg (set_stack rest s)))
      ∧ (truthy v = true → vm_jmpz arg s = Ok true s))
  ∧ (∀ (code : list instr) (arg : value) (s : VMState) (p z : Z) (rest : list value),
      current code s = Some (m_jmpz, arg) →
      pc s = VInt p →
      stack s = VInt z :: rest →
      z ≠ 0 →
      loop_body code s = Ok true (set_pc (VInt (p + 1)) s)).
Proof.
  split; [|split].
  - intros arg s Hst. run_on Hst. reflexivity.
  - intros arg s v rest Hst. split; [apply truthy_false|].
    rewrite (vm_jmpz_cases _ _ _ _ Hst). split; intros ->; reflexivity.
  - intros code arg s p z rest Hcur Hp Hst Hz.
    rewrite (loop_body_current _ _ _ _ Hcur).
    erewrite vm_jmpz_cases by (simpl; exact Hst).
    unfold next_pc. rewrite Hp. simpl.
    destruct (Z.eqb_spec z 0); [done | reflexivity].
Qed.

Lemma C6_jmpz_pops_only_when_taken_witness :
  vm_jmpz (VInt 5) (set_stack [VInt 0; VInt 9] new_vm)
  = Ok true (set_pc (VInt 5) (set_stack [VInt 9] (set_stack [VInt 0; VInt 9] new_vm)))
  ∧ loop_body [(10, VInt 5)] (set_stack [VInt 3; VInt 9] new_vm)
    = Ok true (set_pc (VInt (0 + 1)) (set_stack [VInt 3; VInt 9] new_vm)).
Proof.
  destruct C6_jmpz_pops_only_when_taken as (_ & Hm & Hl). split.
  - apply (Hm (VInt 5) (set_stack [VInt 0; VInt 9] new_vm) (VInt 0) [VInt 9] eq_refl).
    reflexivity.
  - apply (Hl [(10, VInt 5)] (VInt 5) (set_stack [VInt 3; VInt 9] new_vm) 0 3 [VInt 9]);
      [reflexivity | reflexivity | reflexivity | lia].
Defined.

(** A turn raises [VMSegfault] exactly on a program counter out of range. *)
Lemma loop_body_segfault_iff (code : list instr) (s : VMState) :
  (∃ s', loop_body code s = Raise VMSegfault s') ↔ out_of_range code s.
Proof.
  split.
  - intros [s' H]. apply loop_body_raises in H as [(_ & Hr & _)|(_ & H)]; [done|].
    destruct H as [H|[H|[H|[H|H]]]]; discriminate.
  - intros Hr. exists s. by apply loop_body_out_of_range.
Qed.

(** [run] ends with [VMSegfault] exactly at the end of an execution that
    reaches a program counter out of range. *)
Lemma run_segfault_inv (code : list instr) (fuel : nat) (s s' : VMState) :
  run fuel code s = Some (Raise VMSegfault s') →
  ∃ out, executes code s out s' ∧ out_of_range code s'.
Proof.
  intros H. destruct (run_inv _ _ _ _ H) as (out & sn & Hex & Hend).
  destruct (loop_body code sn) as [[|] s1|e1 s1] eqn:E; [done| |].
  - apply loop_body_stop in E as (_ & -> & Hne).
    revert Hend. unfold run_return. run_method. simpl.
    destruct (stack sn); [done | discriminate].
  - injection Hend as <- <-.
    apply loop_body_raises in E as [(_ & Hr & ->)|(_ & E)]; [by exists out|].
    destruct E as [E|[E|[E|[E|E]]]]; discriminate.
Qed.

Lemma run_segfault_intro (code : list instr) (s s' : VMState) (out : pystr) :
  executes code s out s' →
  out_of_range code s' →
  ∃ n : nat, ∀ fuel : nat, (n ≤ fuel)%nat →
    run fuel code s = Some (Raise VMSegfault s').
Proof.
  intros Hex Hr. destruct (run_after_executes _ _ _ _ Hex) as [n Hn].
  exists (n + 1)%nat. intros fuel Hle.
  apply (run_more_fuel code (n + 1)); [|done].
  rewrite Hn. simpl. by rewrite (loop_body_out_of_range _ _ Hr).
Qed.

(** C7: a turn of the loop fails with [VMSegfault] exactly when the program
    counter is outside [0, len(code)) at fetch time, and a run fails with it
    exactly when its execution reaches such a state.  [JMP] stores its
    argument in [pc] without any check; when the argument is negative or not
    below the length of the program the failure comes with the next fetch. *)
Theorem C7_segfault_exactly_at_fetch :
  (∀ (code : list instr) (s : VMState),
      (∃ s', loop_body code s = Raise VMSegfault s') ↔ out_of_range code s)
  ∧ (∀ (code : list instr) (fuel : nat) (s s' : VMState),
      run fuel code s = Some (Raise VMSegfault s') →
      ∃ out, executes code s out s' ∧ out_of_range code s')
  ∧ (∀ (code : list instr) (s s' : VMState) (out : pystr),
      executes code s out s' →
      out_of_range code s' →
      ∃ n : nat, ∀ fuel : nat, (n ≤ fuel)%nat →
        run fuel code s = Some (Raise VMSegfault s'))
  ∧ (∀ (arg : value) (s : VMState), vm_jmp arg s = Ok true (set_pc arg s))
  ∧ (∀ (code : list instr) (s : VMState) (n : Z) (fuel : nat),
      current code s = Some (m_jmp, VInt n) →
      n < 0 ∨ Z.of_nat (length code) ≤ n →
      run (S (S fuel)) code s = Some (Raise VMSegfault (set_pc (VInt n) s))).
Proof.
  split; [exact loop_body_segfault_iff|].
  split; [exact run_segfault_inv|].
  split; [exact run_segfault_intro|].
  split; [reflexivity|].
  intros code s n fuel Hcur Hn.
  change (run (S (S fuel)) code s) with
    (match loop_body code s with
     | Raise e s' => Some (Raise e s')
     | Ok true s' => run (S fuel) code s'
     | Ok false s' => Some (run_return s')
     end).
  rewrite (loop_body_current _ _ _ _ Hcur).
  change (call m_jmp (VInt n) (set_pc (next_pc s) s)) with (Ok true (set_pc (VInt n) s)).
  simpl. rewrite loop_body_out_of_range; [reflexivity|].
  by exists n.
Qed.

Lemma C7_segfault_exactly_at_fetch_witness :
  run 2 [(9, VInt (-1)); (3, VNone)] new_vm
  = Some (Raise VMSegfault (set_pc (VInt (-1)) new_vm))
  ∧ run 2 [(9, VInt 2); (3, VNone)] new_vm
    = Some (Raise VMSegfault (set_pc (VInt 2) new_vm)).
Proof.
  destruct C7_segfault_exactly_at_fetch as (_ & _ & _ & _ & H). split.
  - apply (H [(9, VInt (-1)); (3, VNone)] new_vm (-1) 0%nat); [reflexivity|].
    left. lia.
  - apply (H [(9, VInt 2); (3, VNone)] new_vm 2 0%nat); [reflexivity|].
    right. simpl. lia.
Defined.

(** ** The assembler *)

Lemma split_not_nil (sep : N) (s : pystr) : split sep s ≠ [].
Proof.
  destruct s as [|c s]; simpl; [discriminate|].
  destruct (c =? sep)%N; [discriminate|].
  destruct (split sep s); discriminate.
Qed.

(** One turn of the [for] loop, by the number of tokens of the line. *)
Lemma assemble_loop_cons (int_of_str : pystr → option Z)
    (line : pystr) (rest : list pystr) (code : list instr) (s : VMState) :
  assemble_loop int_of_str (line :: rest) code s =
  match split SP line with
  | [w0] =>
      match instruction_ids s !! w0 with
      | Some op_id => assemble_loop int_of_str rest (code ++ [(op_id, VNone)]) s
      | None => Raise InvalidInstruction s
      end
  | [w0; w1] =>
      match instruction_ids s !! w0 with
      | Some op_id =>
          match int_of_str w1 with
          | Some z => assemble_loop int_of_str rest (code ++ [(op_id, VInt z)]) s
          | None => Raise ValueError s
          end
      | None => Raise InvalidInstruction s
      end
  | _ => Raise InvalidInstruction s
  end.
Proof.
  pose proof (split_not_nil SP line) as Hne. simpl.
  destruct (split SP line) as [|w0 [|w1 [|w2 ws]]]; [done| | |].
  - simpl. run_method. destruct (instruction_ids s !! w0); reflexivity.
  - simpl. run_method. destruct (instruction_ids s !! w0); [|reflexivity].
    unfold py_int. destruct (int_of_str w1); reflexivity.
  - assert ((3 <=? Z.of_nat (length (w0 :: w1 :: w2 :: ws))) = true) as ->.
    { apply Z.leb_le. simpl. lia. }
    reflexivity.
Qed.

(** The loop succeeds exactly when every line decodes, and then it has
    appended the decoded instructions in order and left the VM as it was. *)
Lemma assemble_loop_ok (int_of_str : pystr → option Z) (s : VMState) (lines : list pystr) :
  ∀ (code0 code : list instr) (s' : VMState),
    assemble_loop int_of_str lines code0 s = Ok code s' ↔
    s' = s ∧ ∃ new, code = code0 ++ new ∧ Forall2 (decodes int_of_str s) lines new.
Proof.
  induction lines as [|line rest IH]; intros code0 code s'.
  - simpl. run_method. split.
    + intros [= <- <-]. split; [done|]. exists []. by rewrite app_nil_r.
    + intros (-> & new & -> & Hf). apply Forall2_nil_inv_l in Hf as ->.
      by rewrite app_nil_r.
  - rewrite assemble_loop_cons. split.
    + intros H.
      destruct (split SP line) as [|w0 [|w1 [|w2 ws]]] eqn:Hsp; try discriminate.
      * destruct (instruction_ids s !! w0) as [op_id|] eqn:Hid; [|discriminate].
        apply IH in H as (-> & new & -> & Hf). split; [done|].
        exists ((op_id, VNone) :: new). rewrite <- app_assoc. split; [done|].
        constructor; [|done]. left. by exists w0.
      * destruct (instruction_ids s !! w0) as [op_id|] eqn:Hid; [|discriminate].
        destruct (int_of_str w1) as [z|] eqn:Hz; [|discriminate].
        apply IH in H as (-> & new & -> & Hf). split; [done|].
        exists ((op_id, VInt z) :: new). rewrite <- app_assoc. split; [done|].
        constructor; [|done]. right. by exists w0, w1, z.
    + intros (-> & new & -> & Hf).
      apply Forall2_cons_inv_l in Hf as ([op_id arg] & new' & Hd & Hf & ->).
      destruct Hd as [(w0 & -> & Hid & Harg)|(w0 & w1 & z & -> & Hid & Hz & Harg)];
        simpl in *; subst arg; rewrite Hid.
      * apply IH. split; [done|]. exists new'. by rewrite <- app_assoc.
      * rewrite Hz. apply IH. split; [done|]. exists new'. by rewrite <- app_assoc.
Qed.

(** The only exceptions of the loop: [InvalidInstruction] for a line with
    three tokens or more or an unregistered first token, and [ValueError]
    for a second token that [int] rejects.  The VM is left as it was. *)
Lemma assemble_loop_raises (int_of_str : pystr → option Z) (s : VMState) (lines : list pystr) :
  ∀ (code0 : list instr) (e : exn) (s' : VMState),
    assemble_loop int_of_str lines code0 s = Raise e s' →
    s' = s
    ∧ ∃ line, line ∈ lines
      ∧ ((e = InvalidInstruction
          ∧ ((3 ≤ length (split SP line))%nat
             ∨ ∃ w0 ws, split SP line = w0 :: ws ∧ instruction_ids s !! w0 = None))
         ∨ (e = ValueError
            ∧ ∃ w0 w1, split SP line = [w0; w1]
                       ∧ is_Some (instruction_ids s !! w0)
                       ∧ int_of_str w1 = None)).
Proof.
  induction lines as [|line rest IH]; intros code0 e s'.
  - simpl. run_method. discriminate.
  - rewrite assemble_loop_cons. intros H.
    assert (Hrest : ∀ c, assemble_loop int_of_str rest c s = Raise e s' →
      s' = s ∧ ∃ l, l ∈ line :: rest
        ∧ ((e = InvalidInstruction
            ∧ ((3 ≤ length (split SP l))%nat
               ∨ ∃ w0 ws, split SP l = w0 :: ws ∧ instruction_ids s !! w0 = None))
           ∨ (e = ValueError
              ∧ ∃ w0 w1, split SP l = [w0; w1]
                         ∧ is_Some (instruction_ids s !! w0)
                         ∧ int_of_str w1 = None))).
    { intros c Hc. apply IH in Hc as (-> & l & Hl & Hc). split; [done|].
      exists l. split; [by right | done]. }
    pose proof (split_not_nil SP line) as Hne.
    destruct (split SP line) as [|w0 [|w1 [|w2 ws]]] eqn:Hsp; [done| | |].
    + destruct (instruction_ids s !! w0) as [op_id|] eqn:Hid; [by eapply Hrest|].
      injection H as <- <-. split; [done|]. exists line. split; [by left|].
      left. split; [done|]. right. exists w0, []. by rewrite Hsp.
    + destruct (instruction_ids s !! w0) as [op_id|] eqn:Hid.
      * destruct (int_of_str w1) as [z|] eqn:Hz; [by eapply Hrest|].
        injection H as <- <-. split; [done|]. exists line. split; [by left|].
        right. split; [done|]. exists w0, w1. rewrite Hsp, Hid. eauto.
      * injection H as <- <-. split; [done|]. exists line. split; [by left|].
        left. split; [done|]. right. exists w0, [w1]. by rewrite Hsp.
    + injection H as <- <-. split; [done|]. exists line. split; [by left|].
      left. split; [done|]. left. rewrite Hsp. simpl. lia.
Qed.

(** [assemble] succeeds exactly when every line that is not empty decodes. *)
Lemma assemble_ok
    (int_of_str : pystr → option Z) (text : pystr) (s s' : VMState) (code : list instr) :
  assemble int_of_str text s = Ok code s' ↔
  s' = s
  ∧ Forall2 (decodes int_of_str s)
            (filter (λ line : pystr, line ≠ []) (split LF text)) code.
Proof.
  unfold assemble. rewrite assemble_loop_ok. split.
  - intros (-> & new & -> & Hf). done.
  - intros (-> & Hf). split; [done|]. by exists code.
Qed.

(** C9 (as the code has it): [assemble] splits the text on newlines and
    drops the lines that are the empty string, and only those.  It succeeds
    exactly when every remaining line decodes; the program then has one
    instruction per remaining line, each the decoding of its line, in order,
    and the VM is left as it was. *)
Theorem C9_assemble_skips_empty_lines
    (int_of_str : pystr → option Z) (text : pystr) (s s' : VMState) (code : list instr) :
  assemble int_of_str text s = Ok code s' ↔
  s' = s
  ∧ length code = length (filter (λ line : pystr, line ≠ []) (split LF text))
  ∧ Forall2 (decodes int_of_str s)
            (filter (λ line : pystr, line ≠ []) (split LF text)) code.
Proof.
  rewrite assemble_ok. split.
  - intros [-> Hf]. split; [done|]. split; [|done].
    symmetry. by eapply Forall2_length.
  - intros (-> & _ & Hf). done.
Qed.

(** C9, the claim as stated fails: a line holding one space is not skipped;
    it makes [assemble] raise [InvalidInstruction], where the same text with
    an empty line in its place assembles to two instructions. *)
Lemma C9_whitespace_line_counterexample :
  assemble ascii_int (lit "ADD" ++ [LF; SP; LF] ++ lit "EXIT") new_vm
  = Raise InvalidInstruction new_vm
  ∧ assemble ascii_int (lit "ADD" ++ [LF; LF] ++ lit "EXIT") new_vm
    = Ok [(2, VNone); (3, VNone)] new_vm.
Proof. split; vm_compute; reflexivity. Qed.

(** When [assemble] raises, some line that is not empty is to blame:
    [InvalidInstruction] for three tokens or more or an unregistered
    mnemonic, [ValueError] for an argument token that [int] rejects.  No
    program is returned and the VM is left as it was. *)
Lemma assemble_raises
    (int_of_str : pystr → option Z) (text : pystr) (s s' : VMState) (e : exn) :
  assemble int_of_str text s = Raise e s' →
  s' = s
  ∧ ∃ line, line ∈ split LF text ∧ line ≠ []
    ∧ ((e = InvalidInstruction
        ∧ ((3 ≤ length (split SP line))%nat
           ∨ ∃ w0 ws, split SP line = w0 :: ws ∧ instruction_ids s !! w0 = None))
       ∨ (e = ValueError
          ∧ ∃ w0 w1, split SP line = [w0; w1]
                     ∧ is_Some (instruction_ids s !! w0)
                     ∧ int_of_str w1 = None)).
Proof.
  unfold assemble. intros H.
  apply assemble_loop_raises in H as (-> & line & Hin & H). split; [done|].
  apply list_elem_of_filter in Hin as [Hne Hin]. by exists line.
Qed.

(** C8, evaluated at the failing input: on the one-line text
    [LOAD_CONST x], whose argument token [int] rejects, [assemble] raises
    the built-in [ValueError], not [InvalidInstruction]. *)
Theorem C8_unparseable_argument_raises_ValueError (int_of_str : pystr → option Z) :
  int_of_str (lit "x") = None →
  assemble int_of_str (lit "LOAD_CONST x") new_vm = Raise ValueError new_vm
  ∧ assemble int_of_str (lit "LOAD_CONST x") new_vm ≠ Raise InvalidInstruction new_vm.
Proof.
  intros Hx.
  assert (assemble int_of_str (lit "LOAD_CONST x") new_vm = Raise ValueError new_vm) as ->.
  { unfold assemble.
    change (filter (λ line : pystr, line ≠ []) (split LF (lit "LOAD_CONST x")))
      with [lit "LOAD_CONST x"].
    rewrite assemble_loop_cons.
    change (split SP (lit "LOAD_CONST x")) with [lit "LOAD_CONST"; lit "x"].
    cbv beta iota.
    change (instruction_ids new_vm !! lit "LOAD_CONST") with (Some 1).
    cbv beta iota. by rewrite Hx. }
  split; [reflexivity | discriminate].
Qed.

Lemma C8_unparseable_argument_raises_ValueError_witness :
  assemble ascii_int (lit "LOAD_CONST x") new_vm = Raise ValueError new_vm.
Proof.
  apply (C8_unparseable_argument_raises_ValueError ascii_int). reflexivity.
Defined.

Lemma C9_assemble_skips_empty_lines_witness :
  Forall2 (decodes ascii_int new_vm)
          (filter (λ line : pystr, line ≠ [])
                  (split LF (lit "ADD" ++ [LF; LF] ++ lit "EXIT")))
          [(2, VNone); (3, VNone)].
Proof.
  apply (proj1 (C9_assemble_skips_empty_lines ascii_int
                  (lit "ADD" ++ [LF; LF] ++ lit "EXIT") new_vm new_vm
                  [(2, VNone); (3, VNone)])).
  vm_compute. reflexivity.
Defined.

(** ** Integers on the stack *)

(** A method keeps a stack of integers a stack of integers, whether it
    returns or raises, as long as [LOAD_CONST] is given an integer. *)
Lemma call_int_stack (m : method) (arg : value) (s : VMState) :
  int_stack s →
  (m = m_load_const → is_int arg) →
  match call m arg s with
  | Ok _ s' => int_stack s'
  | Raise _ s' => int_stack s'
  end.
Proof.
  unfold int_stack. intros Hs Harg.
  destruct (stack s) as [|v [|w rest]] eqn:Hst; destruct m; run_on Hst;
    repeat match goal with
           | H : Forall _ (_ :: _) |- _ => apply Forall_cons in H as [? H]
           end;
    split_values; rewrite ?Hst; simpl;
    repeat (apply Forall_cons; split); try done; by apply Harg.
Qed.

(** The registry reads [LOAD_CONST] for the opcode of that mnemonic only. *)
Lemma load_const_mnemonic (w : pystr) (op_id : Z) :
  instruction_ids new_vm !! w = Some op_id →
  instruction_actions new_vm !! op_id = Some m_load_const →
  w = lit "LOAD_CONST".
Proof.
  change (instruction_ids new_vm) with
    (<[lit "WRITE_CHAR" := 12]> (<[lit "WRITE" := 11]> (<[lit "JMPZ" := 10]>
     (<[lit "JMP" := 9]> (<[lit "DUP" := 8]> (<[lit "NEQ" := 7]>
     (<[lit "EQ" := 6]> (<[lit "DIV" := 5]> (<[lit "POP" := 4]>
     (<[lit "EXIT" := 3]> (<[lit "ADD" := 2]> (<[lit "LOAD_CONST" := 1]>
     (<[lit "PRINT" := 0]> (∅ : gmap (list N) Z)))))))))))))).
  intros H.
  repeat (apply lookup_insert_Some in H as [[<- <-]|[_ H]];
          [first [done | intros; discriminate]|]).
  by rewrite lookup_empty in H.
Qed.

(** The instruction the loop dispatches to is an instruction of the
    program. *)
Lemma current_in_code (code : list instr) (s : VMState) (m : method) (arg : value) :
  current code s = Some (m, arg) →
  ∃ op_id, (op_id, arg) ∈ code ∧ instruction_actions s !! op_id = Some m.
Proof.
  unfold current. destruct (pc s) as [p|]; [|discriminate].
  destruct (_ || _); [discriminate|].
  destruct (code !! Z.to_nat p) as [[op_id a]|] eqn:Hl; [|discriminate].
  destruct (instruction_actions s !! op_id) as [m'|] eqn:Ha; [|discriminate].
  simpl. intros [= -> ->]. exists op_id. split; [|done].
  by eapply list_elem_of_lookup_2.
Qed.

(** A turn of the loop keeps the registry and, on a program whose
    [LOAD_CONST]s carry integers, a stack of integers. *)
Lemma loop_body_int_stack (code : list instr) (s : VMState) :
  const_args (instruction_actions s) code →
  int_stack s →
  match loop_body code s with
  | Ok _ s' => instruction_actions s' = instruction_actions s ∧ int_stack s'
  | Raise _ s' => instruction_actions s' = instruction_actions s ∧ int_stack s'
  end.
Proof.
  intros Hc Hs.
  destruct (loop_body_cases code s)
    as [[_ E]|[[_ E]|[[_ E]|(m & arg & _ & Hcur & E)]]]; rewrite E; try done.
  apply current_in_code in Hcur as (op_id & Hin & Ha).
  assert (Harg : m = m_load_const → is_int arg).
  { intros ->. unfold const_args in Hc. rewrite Forall_forall in Hc.
    by apply (Hc (op_id, arg)). }
  pose proof (call_outcome m arg (set_pc (next_pc s) s)) as Ho.
  pose proof (call_int_stack m arg (set_pc (next_pc s) s) Hs Harg) as Hi.
  destruct (call m arg (set_pc (next_pc s) s)); split; tauto.
Qed.

Lemma executes_int_stack (code : list instr) (s s' : VMState) (out : pystr) :
  executes code s out s' →
  const_args (instruction_actions s) code →
  int_stack s →
  instruction_actions s' = instruction_actions s ∧ int_stack s'.
Proof.
  induction 1 as [s|s s1 out s2 Hstep _ IH]; intros Hc Hs; [done|].
  pose proof (loop_body_int_stack code s Hc Hs) as H1. rewrite Hstep in H1.
  destruct H1 as [Ha H1]. rewrite <- Ha in Hc.
  destruct (IH Hc H1) as [Ha2 H2]. split; [congruence | done].
Qed.

(** A text in which every [LOAD_CONST] has an argument assembles to a
    program in which every [LOAD_CONST] carries an integer. *)
Lemma assemble_const_args
    (int_of_str : pystr → option Z) (text : pystr) (s s' : VMState) (code : list instr) :
  registered s →
  load_const_has_argument text →
  assemble int_of_str text s = Ok code s' →
  const_args (instruction_actions s) code.
Proof.
  intros [Hids Hacts] Htext Hasm. unfold assemble in Hasm.
  apply assemble_loop_ok in Hasm as (_ & new & -> & Hf).
  unfold const_args. simpl. rewrite Forall_forall. intros ins Hin Hlc.
  apply list_elem_of_lookup in Hin as [i Hi].
  destruct (Forall2_lookup_r _ _ _ _ _ Hf Hi) as (line & Hline & Hd).
  apply list_elem_of_lookup_2, list_elem_of_filter in Hline as [_ Hline].
  destruct Hd as [(w0 & Hsp & Hid & _)|(w0 & w1 & z & _ & _ & _ & ->)]; [|done].
  exfalso. apply (Htext line Hline). rewrite Hsp. f_equal.
  rewrite Hids in Hid. rewrite Hacts in Hlc.
  by eapply load_const_mnemonic.
Qed.

(** C2 (as the code has it): take a text in which every [LOAD_CONST] line
    has an argument token, assembled on a VM with the built-in registry and
    a stack of integers (a fresh VM's is empty).  Then at every step of the
    execution of the program the operand stack holds integers only, and so
    does the stack left by the next turn of the loop, whether it continues,
    stops or raises. *)
Theorem C2_stack_holds_integers
    (int_of_str : pystr → option Z) (text : pystr) (code : list instr)
    (s0 s0' s : VMState) (out : pystr) :
  registered s0 →
  int_stack s0 →
  load_const_has_argument text →
  assemble int_of_str text s0 = Ok code s0' →
  executes code s0' out s →
  int_stack s
  ∧ match loop_body code s with
    | Ok _ s' => int_stack s'
    | Raise _ s' => int_stack s'
    end.
Proof.
  intros Hreg Hs0 Htext Hasm Hex.
  pose proof (assemble_const_args _ _ _ _ _ Hreg Htext Hasm) as Hc.
  apply assemble_ok in Hasm as [-> _].
  destruct (executes_int_stack _ _ _ _ Hex Hc Hs0) as [Ha Hs].
  split; [done|]. rewrite <- Ha in Hc.
  pose proof (loop_body_int_stack code s Hc Hs) as H.
  destruct (loop_body code s); tauto.
Qed.

Lemma C2_stack_holds_integers_witness :
  int_stack (set_pc (VInt 1) (set_stack [VInt 65] new_vm))
  ∧ match loop_body [(1, VInt 65)] (set_pc (VInt 1) (set_stack [VInt 65] new_vm)) with
    | Ok _ s' => int_stack s'
    | Raise _ s' => int_stack s'
    end.
Proof.
  apply (C2_stack_holds_integers ascii_int (lit "LOAD_CONST 65") [(1, VInt 65)]
           new_vm new_vm (set_pc (VInt 1) (set_stack [VInt 65] new_vm))
           (written [(1, VInt 65)] new_vm ++ [])).
  - split; reflexivity.
  - constructor.
  - intros line Hin.
    change (split LF (lit "LOAD_CONST 65")) with [lit "LOAD_CONST 65"] in Hin.
    apply list_elem_of_singleton in Hin as ->. discriminate.
  - vm_compute. reflexivity.
  - apply (executes_cons [(1, VInt 65)] new_vm
             (set_pc (VInt 1) (set_stack [VInt 65] new_vm))); [reflexivity|].
    apply executes_nil.
Defined.

(** C2, the claim as stated fails: the one-line text [LOAD_CONST] assembles
    to an instruction whose argument is [None], and running it on a fresh VM
    pushes [None]; followed by [EXIT], [run] even returns [None] as the top
    of the stack. *)
Lemma C2_absent_argument_counterexample :
  assemble ascii_int (lit "LOAD_CONST") new_vm = Ok [(1, VNone)] new_vm
  ∧ executes [(1, VNone)] new_vm (written [(1, VNone)] new_vm ++ [])
             (set_pc (VInt 1) (set_stack [VNone] new_vm))
  ∧ ¬ int_stack (set_pc (VInt 1) (set_stack [VNone] new_vm))
  ∧ ∃ s, assemble_and_run 2 (lit "LOAD_CONST" ++ [LF] ++ lit "EXIT")
         = Some (Ok (VNone, []) s).
Proof.
  split; [vm_compute; reflexivity|]. split; [|split].
  - apply (executes_cons [(1, VNone)] new_vm
             (set_pc (VInt 1) (set_stack [VNone] new_vm))); [reflexivity|].
    apply executes_nil.
  - unfold int_stack. simpl. intros H. by apply Forall_cons in H as [H _].
  - eexists. vm_compute. reflexivity.
Qed.

(** ** The registry *)

(** X1: registering an instruction on a well-formed registry hands out the
    next opcode: afterwards the name maps to the old [next_op_id], that
    opcode maps to the action, [next_op_id] has grown by one, every other
    name and opcode reads as before, the registry is still well formed, and
    nothing else of the VM has changed.  A name registered before is simply
    overwritten. *)
Theorem register_instruction_hands_out_next_id
    (name : pystr) (action : method) (s : VMState) :
  registry_consistent s →
  ∃ s', register_instruction name action s = Ok () s'
    ∧ registry_consistent s'
    ∧ next_op_id s' = next_op_id s + 1
    ∧ instruction_ids s' !! name = Some (next_op_id s)
    ∧ instruction_actions s' !! next_op_id s = Some action
    ∧ (∀ other, other ≠ name → instruction_ids s' !! other = instruction_ids s !! other)
    ∧ (∀ op_id, op_id ≠ next_op_id s →
                instruction_actions s' !! op_id = instruction_actions s !! op_id)
    ∧ pc s' = pc s ∧ stack s' = stack s ∧ vm_output s' = vm_output s.
Proof.
  intros (Hn & Hacts & Hids). eexists. split; [reflexivity|].
  unfold registry_consistent. simpl.
  split; [|split; [done|]].
  - split; [lia|]. split.
    + intros op_id. destruct (decide (op_id = next_op_id s)) as [->|Hne].
      * rewrite lookup_insert_eq. split; [lia | eauto].
      * rewrite lookup_insert_ne by done. rewrite Hacts. lia.
    + intros other op_id. destruct (decide (other = name)) as [->|Hne].
      * rewrite lookup_insert_eq. intros [= <-]. lia.
      * rewrite lookup_insert_ne by done. intros H%Hids. lia.
  - split; [apply lookup_insert_eq|]. split; [apply lookup_insert_eq|].
    split; [intros other Hne; by apply lookup_insert_ne|].
    split; [intros op_id Hne; by apply lookup_insert_ne | done].
Qed.

(** The registry of a fresh VM, as the chain of insertions that
    [create_vm] performs. *)
Lemma new_vm_instruction_ids :
  instruction_ids new_vm =
  <[lit "WRITE_CHAR" := 12]> (<[lit "WRITE" := 11]> (<[lit "JMPZ" := 10]>
  (<[lit "JMP" := 9]> (<[lit "DUP" := 8]> (<[lit "NEQ" := 7]>
  (<[lit "EQ" := 6]> (<[lit "DIV" := 5]> (<[lit "POP" := 4]>
  (<[lit "EXIT" := 3]> (<[lit "ADD" := 2]> (<[lit "LOAD_CONST" := 1]>
  (<[lit "PRINT" := 0]> (∅ : gmap (list N) Z))))))))))))).
Proof. reflexivity. Qed.

Lemma new_vm_instruction_actions :
  instruction_actions new_vm =
  <[12 := m_write_char]> (<[11 := m_write]> (<[10 := m_jmpz]>
  (<[9 := m_jmp]> (<[8 := m_dup]> (<[7 := m_neq]> (<[6 := m_eq]>
  (<[5 := m_div]> (<[4 := m_pop]> (<[3 := m_exit]> (<[2 := m_add]>
  (<[1 := m_load_const]> (<[0 := m_print]> (∅ : gmap Z method))))))))))))).
Proof. reflexivity. Qed.

Lemma new_vm_consistent : registry_consistent new_vm.
Proof.
  split; [done|]. change (next_op_id new_vm) with 13. split.
  - intros op_id. split.
    + intros [m Hm]. rewrite new_vm_instruction_actions in Hm.
      repeat (apply lookup_insert_Some in Hm as [[<- _]|[_ Hm]]; [lia|]).
      by rewrite lookup_empty in Hm.
    + intros H.
      assert (op_id = 0 ∨ op_id = 1 ∨ op_id = 2 ∨ op_id = 3 ∨ op_id = 4
              ∨ op_id = 5 ∨ op_id = 6 ∨ op_id = 7 ∨ op_id = 8 ∨ op_id = 9
              ∨ op_id = 10 ∨ op_id = 11 ∨ op_id = 12) as Hcases by lia.
      repeat destruct Hcases as [->|Hcases]; try subst op_id; by eexists.
  - intros name op_id H. rewrite new_vm_instruction_ids in H.
    repeat (apply lookup_insert_Some in H as [[_ <-]|[_ H]]; [lia|]).
    by rewrite lookup_empty in H.
Qed.

Lemma register_instruction_hands_out_next_id_witness :
  ∃ s', register_instruction (lit "NOP") m_pop new_vm = Ok () s'
    ∧ instruction_ids s' !! lit "NOP" = Some 13
    ∧ instruction_actions s' !! 13 = Some m_pop
    ∧ instruction_ids s' !! lit "POP" = Some 4.
Proof.
  destruct (register_instruction_hands_out_next_id (lit "NOP") m_pop new_vm
              new_vm_consistent)
    as (s' & Hr & _ & _ & Hid & Hact & Hother & _).
  exists s'. split; [done|]. split; [done|]. split; [done|].
  rewrite Hother by discriminate. reflexivity.
Defined.




(** ** The assembler, further *)

(** A turn of the loop keeps the registry, whatever its outcome. *)
Lemma loop_body_actions (code : list instr) (s : VMState) :
  match loop_body code s with
  | Ok _ s' => instruction_actions s' = instruction_actions s
  | Raise _ s' => instruction_actions s' = instruction_actions s
  end.
Proof.
  destruct (loop_body_cases code s)
    as [[_ E]|[[_ E]|[[_ E]|(m & arg & _ & _ & E)]]]; rewrite E; try done.
  pose proof (call_outcome m arg (set_pc (next_pc s) s)) as Ho.
  destruct (call m arg (set_pc (next_pc s) s)); tauto.
Qed.

Lemma executes_actions (code : list instr) (s s' : VMState) (out : pystr) :
  executes code s out s' → instruction_actions s' = instruction_actions s.
Proof.
  induction 1 as [s|s s1 out s2 Hstep _ IH]; [done|].
  pose proof (loop_body_actions code s) as H. rewrite Hstep in H. congruence.
Qed.

(** A turn raises [KeyError] only on an instruction of the program whose
    opcode has no handler. *)
Lemma loop_body_key_error (code : list instr) (s s' : VMState) :
  loop_body code s = Raise KeyError s' →
  ∃ ins, ins ∈ code ∧ instruction_actions s !! ins.1 = None.
Proof.
  unfold loop_body. run_method.
  destruct (pc s) as [p|]; [|discriminate].
  destruct (_ || _); [discriminate|].
  destruct (code !! Z.to_nat p) as [[op_id a]|] eqn:Hl; [|discriminate].
  destruct (instruction_actions s !! op_id) as [m|] eqn:Ha.
  - intros H. pose proof (call_outcome m a (set_pc (VInt (p + 1)) s)) as Ho.
    simpl in H. rewrite H in Ho. destruct Ho as [_ [Ho|[Ho|[Ho|Ho]]]]; discriminate.
  - intros _. exists (op_id, a). split; [|done]. by eapply list_elem_of_lookup_2.
Qed.

(** A program whose opcodes all have handlers never makes [run] raise
    [KeyError]. *)
Lemma run_no_key_error (code : list instr) (fuel : nat) (s0 sf : VMState) (e : exn) :
  Forall (λ ins : instr, is_Some (instruction_actions s0 !! ins.1)) code →
  run fuel code s0 = Some (Raise e sf) → e ≠ KeyError.
Proof.
  intros Hall Hrun ->.
  destruct (run_inv _ _ _ _ Hrun) as (out & sn & Hex & Hend).
  destruct (loop_body code sn) as [[|] s1|e1 s1] eqn:E; [done| |].
  - apply loop_body_stop in E as (_ & -> & Hne).
    revert Hend. unfold run_return. run_method. simpl.
    destruct (stack sn); [done | discriminate].
  - injection Hend as <- <-.
    apply loop_body_key_error in E as (ins & Hin & Hnone).
    rewrite (executes_actions _ _ _ _ Hex) in Hnone.
    rewrite Forall_forall in Hall. destruct (Hall ins Hin) as [m Hm]. congruence.
Qed.

Lemma assemble_opcodes
    (int_of_str : pystr → option Z) (text : pystr) (s s' : VMState) (code : list instr) :
  registry_consistent s →
  assemble int_of_str text s = Ok code s' →
  Forall (λ ins : instr, is_Some (instruction_actions s !! ins.1)) code.
Proof.
  intros (_ & Hacts & Hids) Hasm.
  apply assemble_ok in Hasm as [_ Hf]. rewrite Forall_forall. intros ins Hin.
  apply list_elem_of_lookup in Hin as [i Hi].
  destruct (Forall2_lookup_r _ _ _ _ _ Hf Hi) as (line & _ & Hd).
  apply Hacts.
  destruct Hd as [(w0 & _ & Hid & _)|(w0 & w1 & z & _ & Hid & _)]; by eapply Hids.
Qed.

(** X3: on a VM with a well-formed registry, every instruction of an
    assembled program has an opcode with a handler; running the program on
    a VM with the same handlers therefore never raises [KeyError]. *)
Theorem assembled_opcodes_have_handlers
    (int_of_str : pystr → option Z) (text : pystr) (s s' : VMState) (code : list instr) :
  registry_consistent s →
  assemble int_of_str text s = Ok code s' →
  Forall (λ ins : instr, is_Some (instruction_actions s !! ins.1)) code
  ∧ ∀ (fuel : nat) (s0 sf : VMState) (e : exn),
      instruction_actions s0 = instruction_actions s →
      run fuel code s0 = Some (Raise e sf) → e ≠ KeyError.
Proof.
  intros Hc Hasm. pose proof (assemble_opcodes _ _ _ _ _ Hc Hasm) as Hall.
  split; [done|]. intros fuel s0 sf e Hs0. apply run_no_key_error.
  by rewrite Hs0.
Qed.

Lemma assembled_opcodes_have_handlers_witness :
  Forall (λ ins : instr, is_Some (instruction_actions new_vm !! ins.1))
         [(1, VInt 65); (12, VNone); (3, VNone)].
Proof.
  apply (assembled_opcodes_have_handlers ascii_int
           (lit "LOAD_CONST 65" ++ [LF] ++ lit "WRITE_CHAR" ++ [LF] ++ lit "EXIT")
           new_vm new_vm [(1, VInt 65); (12, VNone); (3, VNone)]
           new_vm_consistent).
  vm_compute. reflexivity.
Defined.


(** X4: [assemble] never changes the VM, whether it returns a program or
    raises, and the only exceptions it raises are [InvalidInstruction] and
    [ValueError]. *)
Theorem assemble_leaves_vm_untouched
    (int_of_str : pystr → option Z) (text : pystr) (s : VMState) :
  match assemble int_of_str text s with
  | Ok _ s' => s' = s
  | Raise e s' => s' = s ∧ (e = InvalidInstruction ∨ e = ValueError)
  end.
Proof.
  destruct (assemble int_of_str text s) as [code s'|e s'] eqn:E.
  - by apply assemble_ok in E as [-> _].
  - apply assemble_raises in E as (-> & line & _ & _ & [[-> _]|[-> _]]); auto.
Qed.


(** ** Splitting and joining *)

Lemma split_app (sep : N) (a b : pystr) :
  split sep (a ++ sep :: b) = split sep a ++ split sep b.
Proof.
  induction a as [|c a IH]; simpl.
  - by rewrite N.eqb_refl.
  - destruct (c =? sep)%N; [by rewrite IH|].
    rewrite IH. pose proof (split_not_nil sep a).
    destruct (split sep a); [done | reflexivity].
Qed.

Lemma join_cons (sep : N) (w w' : pystr) (ws : list pystr) :
  join sep (w :: w' :: ws) = w ++ sep :: join sep (w' :: ws).
Proof. reflexivity. Qed.

Lemma split_without_sep (sep : N) (w : pystr) :
  sep ∉ w → split sep w = [w].
Proof.
  induction w as [|c w IH]; [done|]. intros [Hc Hw]%not_elem_of_cons. simpl.
  destruct (N.eqb_spec c sep) as [->|_]; [done|]. by rewrite (IH Hw).
Qed.

(** X5: the tokens of a text never contain the separator, there is one
    more of them than separators in the text, and joining them with the
    separator gives the text back; conversely splitting the join of
    separator-free parts gives the parts back. *)
Theorem split_join_round_trip (sep : N) :
  (∀ s : pystr,
      join sep (split sep s) = s
      ∧ Forall (λ w : pystr, sep ∉ w) (split sep s)
      ∧ length (split sep s) = S (length (filter (λ c, c = sep) s)))
  ∧ (∀ parts : list pystr,
      parts ≠ [] →
      Forall (λ w : pystr, sep ∉ w) parts →
      split sep (join sep parts) = parts).
Proof.
  split.
  - induction s as [|c s (IHj & IHf & IHl)].
    + split; [done|]. split; [|done]. constructor; [|done]. apply not_elem_of_nil.
    + pose proof (split_not_nil sep s) as Hne. cbn [split].
      destruct (N.eqb_spec c sep) as [->|Hc].
      * split; [|split].
        -- destruct (split sep s) as [|w ws]; [done|].
           by rewrite join_cons, IHj.
        -- constructor; [apply not_elem_of_nil | done].
        -- rewrite filter_cons_True by done. simpl. by rewrite IHl.
      * destruct (split sep s) as [|w ws]; [done|]. split; [|split].
        -- destruct ws as [|w' ws]; [by rewrite <- IHj|].
           rewrite join_cons. rewrite join_cons in IHj. by rewrite <- IHj.
        -- apply Forall_cons in IHf as [Hw Hws]. constructor; [|done].
           rewrite not_elem_of_cons. split; [congruence | done].
        -- rewrite filter_cons_False by done. exact IHl.
  - induction parts as [|w parts IH]; [done|]. intros _ Hf.
    apply Forall_cons in Hf as [Hw Hf].
    destruct parts as [|w' parts]; [by apply split_without_sep|].
    rewrite join_cons, split_app, (IH ltac:(done) Hf).
    by rewrite (split_without_sep _ _ Hw).
Qed.

Lemma split_join_round_trip_witness :
  split SP (join SP [lit "LOAD_CONST"; lit "65"]) = [lit "LOAD_CONST"; lit "65"].
Proof.
  apply (proj2 (split_join_round_trip SP) [lit "LOAD_CONST"; lit "65"]).
  - discriminate.
  - repeat constructor; vm_compute; intros H;
      repeat (apply elem_of_cons in H as [H|H]; [discriminate|]);
      by apply elem_of_nil in H.
Defined.


(** The [code] list the loop starts from is only ever appended to. *)
Lemma assemble_loop_acc (int_of_str : pystr → option Z) (s : VMState) (lines : list pystr) :
  ∀ code0 : list instr,
    assemble_loop int_of_str lines code0 s =
    match assemble_loop int_of_str lines [] s with
    | Ok code s' => Ok (code0 ++ code) s'
    | Raise e s' => Raise e s'
    end.
Proof.
  induction lines as [|line rest IH]; intros code0.
  - simpl. run_method. by rewrite app_nil_r.
  - rewrite !assemble_loop_cons.
    destruct (split SP line) as [|w0 [|w1 [|w2 ws]]]; try reflexivity.
    + destruct (instruction_ids s !! w0) as [op_id|]; [|reflexivity].
      rewrite (IH (code0 ++ _)), (IH ([] ++ _)).
      destruct (assemble_loop int_of_str rest [] s); [|reflexivity].
      by rewrite <- app_assoc.
    + destruct (instruction_ids s !! w0) as [op_id|]; [|reflexivity].
      destruct (int_of_str w1); [|reflexivity].
      rewrite (IH (code0 ++ _)), (IH ([] ++ _)).
      destruct (assemble_loop int_of_str rest [] s); [|reflexivity].
      by rewrite <- app_assoc.
Qed.

Lemma assemble_loop_app (int_of_str : pystr → option Z) (s : VMState) (l1 l2 : list pystr) :
  ∀ code0 : list instr,
    assemble_loop int_of_str (l1 ++ l2) code0 s =
    match assemble_loop int_of_str l1 code0 s with
    | Ok code s' => assemble_loop int_of_str l2 code s'
    | Raise e s' => Raise e s'
    end.
Proof.
  induction l1 as [|line rest IH]; intros code0; [reflexivity|].
  rewrite <- app_comm_cons, !assemble_loop_cons.
  destruct (split SP line) as [|w0 [|w1 [|w2 ws]]]; try reflexivity.
  - destruct (instruction_ids s !! w0); [apply IH | reflexivity].
  - destruct (instruction_ids s !! w0); [|reflexivity].
    destruct (int_of_str w1); [apply IH | reflexivity].
Qed.

(** X6: assembling two texts joined by a newline is assembling the first
    and then the second: the program is the concatenation of the two
    programs, and the first error, in text order, is the one raised. *)
Theorem assemble_concatenation
    (int_of_str : pystr → option Z) (t1 t2 : pystr) (s : VMState) :
  assemble int_of_str (t1 ++ LF :: t2) s =
  match assemble int_of_str t1 s with
  | Ok code1 s1 =>
      match assemble int_of_str t2 s1 with
      | Ok code2 s2 => Ok (code1 ++ code2) s2
      | Raise e s2 => Raise e s2
      end
  | Raise e s1 => Raise e s1
  end.
Proof.
  unfold assemble. rewrite split_app, filter_app, assemble_loop_app.
  destruct (assemble_loop int_of_str _ [] s) as [code1 s1|e s1] eqn:E1; [|reflexivity].
  apply assemble_loop_ok in E1 as [-> _].
  apply assemble_loop_acc.
Qed.


(** ** The methods, further *)

(** X7: a method raises [VMStackFail] exactly when the stack holds fewer
    values than the depth it is decorated with ([LOAD_CONST] and [JMP],
    undecorated, never do), and it then leaves the VM exactly as it was. *)
Theorem stack_fail_iff_too_shallow (m : method) (arg : value) (s : VMState) :
  ((∃ s', call m arg s = Raise VMStackFail s')
   ↔ (length (stack s) < required_depth m)%nat)
  ∧ (∀ s', call m arg s = Raise VMStackFail s' → s' = s).
Proof.
  destruct (stack s) as [|v [|w rest]] eqn:Hst; destruct m; run_on Hst;
    split_values; rewrite ?Hst; simpl;
    (split; [split; [intros [s' H]; first [discriminate | lia]
                    | intros H; first [lia | by eexists]]
            | intros s' H; first [discriminate | by injection H]]).
Qed.

Lemma stack_fail_iff_too_shallow_witness :
  ∃ s', call m_add VNone (set_stack [VInt 1] new_vm) = Raise VMStackFail s'.
Proof.
  apply (proj1 (stack_fail_iff_too_shallow m_add VNone (set_stack [VInt 1] new_vm))).
  simpl. lia.
Defined.

(** X8: [ADD] replaces two integers on top of the stack by their sum,
    whichever of the two is on top; if one of the two topmost values is
    [None] it raises [TypeError] after both have been popped. *)
Theorem add_sums_two_integers (arg : value) (s : VMState) (v w : value) (rest : list value) :
  stack s = v :: w :: rest →
  match v, w with
  | VInt a, VInt b =>
      vm_add arg s = Ok true (set_stack (VInt (a + b) :: rest) s)
      ∧ vm_add arg (set_stack (VInt b :: VInt a :: rest) s)
        = Ok true (set_stack (VInt (a + b) :: rest) s)
  | _, _ => vm_add arg s = Raise TypeError (set_stack rest s)
  end.
Proof.
  intros Hst. destruct v as [a|], w as [b|]; try (run_on Hst; reflexivity).
  split; [run_on Hst; reflexivity|].
  unfold vm_add. rewrite check_argument_length_spec. simpl stack.
  rewrite depth_ok2. run_method. simpl. by rewrite (Z.add_comm b a).
Qed.

Lemma add_sums_two_integers_witness :
  vm_add VNone (set_stack [VInt 432; VInt 905] new_vm)
  = Ok true (set_stack [VInt 1337] (set_stack [VInt 432; VInt 905] new_vm)).
Proof.
  apply (add_sums_two_integers VNone (set_stack [VInt 432; VInt 905] new_vm)
           (VInt 432) (VInt 905) [] eq_refl).
Defined.

(** X9: [EQ] and [NEQ] replace the two topmost values by an integer, [1]
    or [0]: [EQ] pushes [1] exactly when the two are equal and [NEQ] exactly
    when they differ, so the two results always add up to [1]; [None]
    operands are compared like any other ([None] equals only [None]). *)
Theorem eq_neq_complementary (arg : value) (s : VMState) (v w : value) (rest : list value) :
  stack s = v :: w :: rest →
  vm_eq arg s = Ok true (set_stack (VInt (if decide (v = w) then 1 else 0) :: rest) s)
  ∧ vm_neq arg s = Ok true (set_stack (VInt (if decide (v = w) then 0 else 1) :: rest) s).
Proof.
  intros Hst. split; run_on Hst; unfold py_eq;
    destruct (decide (v = w)) as [Heq|Hne];
    rewrite ?(bool_decide_eq_true_2 _ Heq), ?(bool_decide_eq_false_2 _ Hne);
    reflexivity.
Qed.

Lemma eq_neq_complementary_witness :
  vm_eq VNone (set_stack [VNone; VInt 0] new_vm)
  = Ok true (set_stack [VInt 0] (set_stack [VNone; VInt 0] new_vm))
  ∧ vm_neq VNone (set_stack [VNone; VInt 0] new_vm)
    = Ok true (set_stack [VInt 1] (set_stack [VNone; VInt 0] new_vm)).
Proof.
  apply (eq_neq_complementary VNone (set_stack [VNone; VInt 0] new_vm)
           VNone (VInt 0) [] eq_refl).
Defined.

(** X10: [POP] undoes [DUP] and [LOAD_CONST]: running [DUP] (on a stack
    that is not empty) or [LOAD_CONST] with any argument, and then [POP],
    gives the VM back exactly as it was. *)
Theorem pop_undoes_push (arg arg' v : value) (s : VMState) :
  (vm_load_const v ≫= λ _, vm_pop arg') s = Ok true s
  ∧ (stack s ≠ [] → (vm_dup arg ≫= λ _, vm_pop arg') s = Ok true s).
Proof.
  destruct s as [p n st ids acts out so]. split.
  - unfold vm_load_const, vm_pop. run_method. cbn [stack set_stack].
    rewrite depth_ok1. reflexivity.
  - cbn [stack]. intros Hne. destruct st as [|x st]; [done|].
    unfold vm_dup, vm_pop. run_method. cbn [stack set_stack].
    rewrite depth_ok1. cbn [stack set_stack]. rewrite depth_ok1. reflexivity.
Qed.

Lemma pop_undoes_push_witness :
  (vm_dup VNone ≫= λ _, vm_pop VNone) (set_stack [VInt 3] new_vm)
  = Ok true (set_stack [VInt 3] new_vm).
Proof.
  apply (proj2 (pop_undoes_push VNone VNone VNone (set_stack [VInt 3] new_vm))).
  discriminate.
Defined.



(** ** What a run leaves behind *)

(** A method that raises has written nothing and has not moved [pc]. *)
Lemma call_raise_writes_nothing (m : method) (arg : value) (s s' : VMState) (e : exn) :
  call m arg s = Raise e s' →
  vm_output s' = vm_output s ∧ stdout s' = stdout s ∧ pc s' = pc s.
Proof.
  destruct (stack s) as [|v [|w rest]] eqn:Hst; destruct m; run_on Hst;
    split_values; rewrite ?Hst; simpl; intros H; by simplify_eq.
Qed.

Lemma loop_body_raise_writes_nothing (code : list instr) (s s' : VMState) (e : exn) :
  loop_body code s = Raise e s' →
  vm_output s' = vm_output s ∧ stdout s' = stdout s.
Proof.
  intros H.
  destruct (loop_body_cases code s)
    as [[_ E]|[[_ E]|[[_ E]|(m & arg & _ & _ & E)]]]; rewrite E in H.
  - by injection H as _ <-.
  - by injection H as _ <-.
  - by injection H as _ <-.
  - apply call_raise_writes_nothing in H as (? & ? & _). done.
Qed.

(** X11: when a run fails, the output buffer of the VM holds what it held
    at the start followed by exactly what the instructions executed before
    the failing one wrote: the failing turn itself writes nothing. *)
Theorem failed_run_keeps_partial_output
    (code : list instr) (fuel : nat) (s s' : VMState) (e : exn) :
  run fuel code s = Some (Raise e s') →
  ∃ out sn,
    executes code s out sn
    ∧ loop_body code sn = Raise e s'
    ∧ vm_output s' = vm_output s ++ out.
Proof.
  intros H. destruct (run_inv _ _ _ _ H) as (out & sn & Hex & Hend).
  exists out, sn. split; [done|].
  destruct (loop_body code sn) as [[|] s1|e1 s1] eqn:E; [done| |].
  - apply loop_body_stop in E as (_ & -> & Hne).
    revert Hend. unfold run_return. run_method. simpl.
    destruct (stack sn); [done | discriminate].
  - injection Hend as <- <-. split; [done|].
    apply loop_body_raise_writes_nothing in E as [-> _].
    by eapply executes_output.
Qed.

Lemma failed_run_keeps_partial_output_witness :
  ∃ out sn,
    executes [(1, VInt 65); (12, VNone); (5, VNone)] new_vm out sn
    ∧ loop_body [(1, VInt 65); (12, VNone); (5, VNone)] sn
      = Raise VMStackFail
          (set_pc (VInt 3) (set_vm_output (lit "A") (set_stack [VInt 65] new_vm)))
    ∧ vm_output (set_pc (VInt 3) (set_vm_output (lit "A") (set_stack [VInt 65] new_vm)))
      = vm_output new_vm ++ out.
Proof.
  apply (failed_run_keeps_partial_output
           [(1, VInt 65); (12, VNone); (5, VNone)] 3 new_vm _ VMStackFail).
  vm_compute. reflexivity.
Defined.

(** X12: [PRINT], [WRITE] and [WRITE_CHAR] only observe the stack: when
    they return they ask to continue and have left the stack and [pc] as
    they were; [PRINT] has appended the text of the top and a newline to
    standard output and nothing to the output buffer, the other two have
    left standard output alone.  When they raise they have changed
    nothing. *)
Theorem observers_keep_stack (m : method) (arg : value) (s : VMState) :
  m = m_print ∨ m = m_write ∨ m = m_write_char →
  match call m arg s with
  | Ok b s' =>
      b = true ∧ stack s' = stack s ∧ pc s' = pc s
      ∧ (m = m_print →
         vm_output s' = vm_output s
         ∧ ∃ top rest, stack s = top :: rest
                       ∧ stdout s' = stdout s ++ py_str top ++ [LF])
      ∧ (m ≠ m_print → stdout s' = stdout s)
  | Raise e s' => s' = s
  end.
Proof.
  intros Hm.
  destruct (stack s) as [|v rest] eqn:Hst;
    destruct Hm as [->|[->| ->]]; run_on Hst; try reflexivity.
  - split; [done|]. split; [done|]. split; [done|]. split; [|done].
    intros _. split; [done|]. by exists v, rest.
  - split; [done|]. split; [done|]. split; [done|]. split; [discriminate | done].
  - destruct v as [z|]; [|reflexivity]. simpl.
    destruct ((0 <=? z) && (z <? 1114112)); [|reflexivity]. simpl.
    rewrite Hst.
    split; [done|]. split; [done|]. split; [done|]. split; [discriminate | done].
Qed.

Lemma observers_keep_stack_witness :
  match call m_print VNone (set_stack [VInt 7] new_vm) with
  | Ok b s' => stdout s' = lit "7" ++ [LF] ∧ vm_output s' = []
  | Raise _ _ => False
  end.
Proof.
  pose proof (observers_keep_stack m_print VNone (set_stack [VInt 7] new_vm)
                (or_introl eq_refl)) as H.
  destruct (call m_print VNone (set_stack [VInt 7] new_vm)) as [b s'|e s'] eqn:E.
  - destruct H as (_ & _ & _ & Hp & _). destruct (Hp eq_refl) as (Ho & _).
    split; [|exact Ho].
    vm_compute in E. by injection E as _ <-.
  - vm_compute in E. discriminate.
Defined.

(** A method never touches the registry. *)
Lemma call_registry (m : method) (arg : value) (s : VMState) :
  instruction_ids (final_state (call m arg s)) = instruction_ids s
  ∧ instruction_actions (final_state (call m arg s)) = instruction_actions s
  ∧ next_op_id (final_state (call m arg s)) = next_op_id s.
Proof.
  destruct (stack s) as [|v [|w rest]] eqn:Hst; destruct m; run_on Hst;
    split_values; rewrite ?Hst; done.
Qed.

Lemma loop_body_registry (code : list instr) (s : VMState) :
  instruction_ids (final_state (loop_body code s)) = instruction_ids s
  ∧ instruction_actions (final_state (loop_body code s)) = instruction_actions s
  ∧ next_op_id (final_state (loop_body code s)) = next_op_id s.
Proof.
  destruct (loop_body_cases code s)
    as [[_ E]|[[_ E]|[[_ E]|(m & arg & _ & _ & E)]]]; rewrite E; try done.
  apply (call_registry m arg (set_pc (next_pc s) s)).
Qed.

(** X13: the registry is read-only while a program runs: whatever [run]
    ends with, the names, the handlers and [next_op_id] of the VM are the
    ones it started with. *)
Theorem run_keeps_registry
    (code : list instr) (fuel : nat) (s : VMState) (r : outcome (value * pystr)) :
  run fuel code s = Some r →
  instruction_ids (final_state r) = instruction_ids s
  ∧ instruction_actions (final_state r) = instruction_actions s
  ∧ next_op_id (final_state r) = next_op_id s.
Proof.
  revert s. induction fuel as [|fuel IH]; intros s H; [discriminate|].
  simpl in H. pose proof (loop_body_registry code s) as (Hi & Ha & Hn).
  destruct (loop_body code s) as [[|] s1|e s1]; simpl in *.
  - destruct (IH _ H) as (? & ? & ?). repeat split; congruence.
  - injection H as <-. unfold run_return. run_method.
    destruct (stack s1); done.
  - by injection H as <-.
Qed.

Lemma run_keeps_registry_witness :
  ∃ r, run 3 [(1, VInt 65); (12, VNone); (3, VNone)] new_vm = Some r
       ∧ instruction_ids (final_state r) = instruction_ids new_vm.
Proof.
  eexists. split; [vm_compute; reflexivity|].
  apply (run_keeps_registry [(1, VInt 65); (12, VNone); (3, VNone)] 3 new_vm).
  vm_compute. reflexivity.
Defined.


(** ** Edge cases of a run *)

Lemma split_newlines (text : pystr) :
  (∀ c, c ∈ text → c = LF) → Forall (λ line : pystr, line = []) (split LF text).
Proof.
  induction text as [|c text IH]; intros Hall; [by repeat constructor|].
  simpl. rewrite (Hall c) by left. rewrite N.eqb_refl.
  constructor; [done|]. apply IH. intros c' Hc'. apply Hall. by right.
Qed.

(** X14: a text made of newlines only (the empty text included) assembles
    to the empty program, and running the empty program fails at once with
    [VMSegfault], the VM untouched. *)
Theorem blank_text_is_empty_program
    (int_of_str : pystr → option Z) (text : pystr) (s : VMState) (p : Z) (fuel : nat) :
  (∀ c, c ∈ text → c = LF) →
  pc s = VInt p →
  assemble int_of_str text s = Ok [] s
  ∧ run (S fuel) [] s = Some (Raise VMSegfault s).
Proof.
  intros Hall Hp. split.
  - unfold assemble.
    assert (filter (λ line : pystr, line ≠ []) (split LF text) = []) as ->; [|done].
    pose proof (split_newlines text Hall) as Hf.
    induction Hf as [|l ls -> _ IH]; [done|].
    by rewrite filter_cons_False by (intros H; by apply H).
  - simpl. rewrite loop_body_out_of_range; [done|].
    exists p. split; [done|]. simpl. lia.
Qed.

Lemma blank_text_is_empty_program_witness :
  assemble ascii_int [LF; LF] new_vm = Ok [] new_vm
  ∧ run 1 [] new_vm = Some (Raise VMSegfault new_vm).
Proof.
  apply (blank_text_is_empty_program ascii_int [LF; LF] new_vm 0 0%nat); [|done].
  intros c Hc. repeat (apply elem_of_cons in Hc as [Hc|Hc]; [done|]).
  by apply elem_of_nil in Hc.
Defined.

(** X15: [run] returns only by executing an [EXIT]: the value returned is
    the top of the stack, the string is the output buffer, and the VM is
    left with [pc] one past that [EXIT] and nothing reset.  A second [run]
    on the same VM therefore resumes after the [EXIT], and fails with
    [VMSegfault] when the [EXIT] was the last instruction. *)
Theorem run_returns_one_past_exit
    (code : list instr) (fuel : nat) (s sf : VMState) (top : value) (output : pystr) :
  run fuel code s = Some (Ok (top, output) sf) →
  ∃ out sn p arg rest,
    executes code s out sn
    ∧ current code sn = Some (m_exit, arg)
    ∧ pc sn = VInt p
    ∧ sf = set_pc (VInt (p + 1)) sn
    ∧ stack sf = top :: rest
    ∧ output = vm_output sf
    ∧ (Z.of_nat (length code) ≤ p + 1 →
       ∀ fuel', run (S fuel') code sf = Some (Raise VMSegfault sf)).
Proof.
  intros H. destruct (run_inv _ _ _ _ H) as (out & sn & Hex & Hend).
  destruct (loop_body code sn) as [[|] s1|e1 s1] eqn:E; [done| |discriminate].
  apply loop_body_stop in E as ([arg Hcur] & -> & Hne).
  assert (∃ p, pc sn = VInt p) as [p Hp].
  { unfold current in Hcur. destruct (pc sn); [eauto | discriminate]. }
  unfold next_pc in *. rewrite Hp in *.
  revert Hend. unfold run_return. run_method. simpl.
  destruct (stack sn) as [|v rest] eqn:Hst; [done|]. intros [= -> -> ->].
  exists out, sn, p, arg, rest. repeat (split; [done|]).
  intros Hlen fuel'. simpl. rewrite loop_body_out_of_range; [done|].
  exists (p + 1). split; [done | by right].
Qed.

Lemma run_returns_one_past_exit_witness :
  ∃ out sn p arg rest,
    executes [(1, VInt 65); (3, VNone)] new_vm out sn
    ∧ current [(1, VInt 65); (3, VNone)] sn = Some (m_exit, arg)
    ∧ pc sn = VInt p
    ∧ set_pc (VInt 2) (set_stack [VInt 65] new_vm) = set_pc (VInt (p + 1)) sn
    ∧ stack (set_pc (VInt 2) (set_stack [VInt 65] new_vm)) = VInt 65 :: rest
    ∧ [] = vm_output (set_pc (VInt 2) (set_stack [VInt 65] new_vm))
    ∧ (Z.of_nat (length [(1, VInt 65); (3, VNone)]) ≤ p + 1 →
       ∀ fuel', run (S fuel') [(1, VInt 65); (3, VNone)]
                    (set_pc (VInt 2) (set_stack [VInt 65] new_vm))
                = Some (Raise VMSegfault (set_pc (VInt 2) (set_stack [VInt 65] new_vm)))).
Proof.
  apply (run_returns_one_past_exit [(1, VInt 65); (3, VNone)] 2 new_vm).
  vm_compute. reflexivity.
Defined.

(** X16: a jump without argument does not fail where it is executed: [JMP]
    (and a taken [JMPZ]) stores [None] in [pc], and the next fetch raises
    [TypeError] when it compares [pc] with [0]. *)
Theorem jump_without_argument_is_type_error (code : list instr) (s : VMState) (fuel : nat) :
  (current code s = Some (m_jmp, VNone) →
   run (S (S fuel)) code s = Some (Raise TypeError (set_pc VNone s)))
  ∧ (∀ v rest,
       current code s = Some (m_jmpz, VNone) →
       stack s = v :: rest →
       truthy v = false →
       run (S (S fuel)) code s
       = Some (Raise TypeError (set_pc VNone (set_stack rest s)))).
Proof.
  split.
  - intros Hcur.
    change (run (S (S fuel)) code s) with
      (match loop_body code s with
       | Raise e s' => Some (Raise e s')
       | Ok true s' => run (S fuel) code s'
       | Ok false s' => Some (run_return s')
       end).
    rewrite (loop_body_current _ _ _ _ Hcur). reflexivity.
  - intros v rest Hcur Hst Hv.
    change (run (S (S fuel)) code s) with
      (match loop_body code s with
       | Raise e s' => Some (Raise e s')
       | Ok true s' => run (S fuel) code s'
       | Ok false s' => Some (run_return s')
       end).
    rewrite (loop_body_current _ _ _ _ Hcur).
    change (call m_jmpz) with vm_jmpz.
    erewrite vm_jmpz_cases by (simpl; exact Hst). rewrite Hv. reflexivity.
Qed.

Lemma jump_without_argument_is_type_error_witness :
  assemble ascii_int (lit "JMP") new_vm = Ok [(9, VNone)] new_vm
  ∧ run 2 [(9, VNone)] new_vm = Some (Raise TypeError (set_pc VNone new_vm)).
Proof.
  split; [vm_compute; reflexivity|].
  apply (proj1 (jump_without_argument_is_type_error [(9, VNone)] new_vm 0)).
  reflexivity.
Defined.

(** X17: the loop of [run] has no bound: on a [JMP] whose argument is its
    own address, [run] never ends, however many turns it is given. *)
Theorem jump_to_itself_never_ends (code : list instr) (s : VMState) (p : Z) :
  pc s = VInt p →
  current code s = Some (m_jmp, VInt p) →
  ∀ fuel : nat, run fuel code s = None.
Proof.
  intros Hp Hcur fuel. induction fuel as [|fuel IH]; [done|].
  simpl. rewrite (loop_body_current _ _ _ _ Hcur).
  assert (call m_jmp (VInt p) (set_pc (next_pc s) s) = Ok true s) as ->; [|done].
  destruct s as [pc0 n st ids acts out so]. simpl in Hp. subst pc0. reflexivity.
Qed.

Lemma jump_to_itself_never_ends_witness :
  run 1000 [(9, VInt 0)] new_vm = None.
Proof.
  apply (jump_to_itself_never_ends [(9, VInt 0)] new_vm 0); reflexivity.
Defined.

(** ** The caller *)




(** X19: [WRITE_CHAR] appends exactly one character, the one whose code
    point is the top of the stack, when the top is an integer in
    [0, 0x110000); on any other integer it raises the error of [chr], and on
    [None] it raises [TypeError], in both cases leaving the VM as it was. *)
Theorem write_char_code_point_range (arg : value) (s : VMState) (v : value) (rest : list value) :
  stack s = v :: rest →
  vm_write_char arg s =
  match v with
  | VInt z =>
      if decide (0 ≤ z < 1114112)
      then Ok true (set_vm_output (vm_output s ++ [Z.to_N z]) s)
      else Raise ChrError s
  | VNone => Raise TypeError s
  end.
Proof.
  intros Hst. run_on Hst. destruct v as [z|]; [|reflexivity]. simpl.
  destruct (decide (0 ≤ z < 1114112)) as [Hr|Hr].
  - assert ((0 <=? z) && (z <? 1114112) = true) as ->; [|reflexivity].
    apply andb_true_iff. split; [apply Z.leb_le | apply Z.ltb_lt]; lia.
  - assert ((0 <=? z) && (z <? 1114112) = false) as ->; [|reflexivity].
    apply andb_false_iff.
    destruct (decide (0 ≤ z)); [right; apply Z.ltb_ge | left; apply Z.leb_gt]; lia.
Qed.

Lemma write_char_code_point_range_witness :
  vm_write_char VNone (set_stack [VInt 1114112] new_vm)
  = Raise ChrError (set_stack [VInt 1114112] new_vm)
  ∧ vm_write_char VNone (set_stack [VInt (-1)] new_vm)
    = Raise ChrError (set_stack [VInt (-1)] new_vm).
Proof.
  split.
  - apply (write_char_code_point_range VNone (set_stack [VInt 1114112] new_vm)
             (VInt 1114112) [] eq_refl).
  - apply (write_char_code_point_range VNone (set_stack [VInt (-1)] new_vm)
             (VInt (-1)) [] eq_refl).
Defined.

(** X20: an instruction whose opcode has no handler (it cannot come from
    [assemble]) makes [run] raise [KeyError] when it is fetched, with [pc]
    already incremented and nothing else changed. *)
Theorem unknown_opcode_is_key_error
    (code : list instr) (s : VMState) (p op_id : Z) (arg : value) (fuel : nat) :
  pc s = VInt p →
  0 ≤ p →
  code !! Z.to_nat p = Some (op_id, arg) →
  instruction_actions s !! op_id = None →
  run (S fuel) code s = Some (Raise KeyError (set_pc (VInt (p + 1)) s)).
Proof.
  intros Hp Hp0 Hl Ha. simpl. unfold loop_body. run_method. rewrite Hp.
  assert ((p <? 0) || (Z.of_nat (length code) <=? p) = false) as ->.
  { apply orb_false_iff. split; [apply Z.ltb_ge; lia|]. apply Z.leb_gt.
    apply lookup_lt_Some in Hl. lia. }
  rewrite Hl. simpl. by rewrite Ha.
Qed.

Lemma unknown_opcode_is_key_error_witness :
  run 1 [(13, VNone)] new_vm = Some (Raise KeyError (set_pc (VInt (0 + 1)) new_vm)).
Proof.
  apply (unknown_opcode_is_key_error [(13, VNone)] new_vm 0 13 VNone 0);
    [reflexivity | lia | reflexivity | reflexivity].
Defined.

Example test_vm_program :
  test_vm ascii_int 7 program
  = Some (lit "Initializing vm..." ++ [LF] ++ lit "1337" ++ [LF]
          ++ lit "Top: 65, output: A" ++ [LF], None).
Proof. vm_compute. reflexivity. Qed.
